(** * grip: leveled logging — message composers, level policy, senders, logger

    A shallow embedding of the Go packages [level], [message], [send] and
    [logging] of grip, one Rocq module per package.

    Conventions of the embedding.
    - A Go object that is mutated through a pointer receiver is a value that
      each method takes and returns (explicit state passing).
    - A Go call that may panic returns an [outcome]; a panic ends the
      enclosing computation.
    - A Go function value is a [Func]: a closure that remembers how many
      times it has been called, so that invocations can be counted.
    - A Go interface is a type class; its implementations are instances. *)

From Stdlib Require Import Ascii String List ZArith Lia Bool.
From stdpp Require Import base option list strings gmap functions.

Open Scope string_scope.
Open Scope list_scope.

(** ** Panics and objects *)

(** What a Go call does: it returns a value, or it panics. *)
Inductive outcome (A : Type) : Type :=
| Val (a : A)
| Panicked (msg : string).
Arguments Val {A} a.
Arguments Panicked {A} msg.

(** A method with a pointer receiver of type [S]: it reads and updates the
    receiver and returns a value or panics. *)
Definition Obj (S A : Type) : Type := S -> outcome A * S.

Definition oret {S A} (a : A) : Obj S A := fun s => (Val a, s).

Definition obind {S A B} (c : Obj S A) (k : A -> Obj S B) : Obj S B :=
  fun s => match c s with
           | (Val a, s') => k a s'
           | (Panicked msg, s') => (Panicked msg, s')
           end.

Notation "'let*' x ':=' c 'in' k" := (obind c (fun x => k))
  (at level 10, x pattern, c at level 100, k at level 200).

(** Run a method on a part of the receiver: [get] reads the field, [set]
    writes it back. *)
Definition zoom {S X A} (get : S -> X) (set : X -> S -> S) (c : Obj X A) : Obj S A :=
  fun s => let (r, x') := c (get s) in (r, set x' s).

(** The runtime error of calling a nil function or a method of a nil interface. *)
Definition nilDereference : string :=
  "runtime error: invalid memory address or nil pointer dereference".

(** Go's [error] interface: nil, or an error with its message. *)
Definition error : Type := option string.

(** A Go function value of type [func() A]. [calls] is the number of times it
    has been invoked so far; the result of an invocation may depend on it, and
    an invocation may panic. *)
Record Func (A : Type) : Type := mkFunc {
  calls : nat;
  body : nat -> outcome A
}.
Arguments mkFunc {A} calls body.
Arguments calls {A} f.
Arguments body {A} f.

(** [f()] for a function value that is not nil. *)
Definition invoke {A} (f : Func A) : outcome A * Func A :=
  (body f (calls f), mkFunc (S (calls f)) (body f)).

(** [f()] for a function value that may be nil: calling nil panics. *)
Definition call {A} : Obj (option (Func A)) A := fun fn =>
  match fn with
  | None => (Panicked nilDereference, None)
  | Some f => let (r, f') := invoke f in (r, Some f')
  end.

(** A method call through a reference that may be nil: calling through nil
    panics. *)
Definition deref {X A} (c : Obj X A) : Obj (option X) A := fun r =>
  match r with
  | None => (Panicked nilDereference, None)
  | Some x => let (a, x') := c x in (a, Some x')
  end.

(** How often the function held in [fn] has been invoked. *)
Definition invocations {A} (fn : option (Func A)) : nat :=
  match fn with
  | None => 0
  | Some f => calls f
  end.

(** ** Package level *)

Module level.

(** Modelled from the spec: the priority enumeration of package [level], whose
    file is not among the sources. The spec orders
    Emergency > Alert > Critical > Error > Warning > Notice > Info > Debug and
    adds the distinguished [Invalid]; the sources also use [level.Trace], the
    level below Debug. [Invalid] is the zero value of the type. *)
Inductive Priority : Type :=
| Invalid | Trace | Debug | Info | Notice | Warning | Error | Critical | Alert
| Emergency.

#[global] Instance Priority_eq_dec : EqDecision Priority.
Proof. solve_decision. Defined.

(** The integer behind each priority; only the order matters. *)
Definition rank (p : Priority) : Z :=
  match p with
  | Invalid => 0
  | Trace => 20
  | Debug => 30
  | Info => 40
  | Notice => 50
  | Warning => 60
  | Error => 70
  | Critical => 80
  | Alert => 90
  | Emergency => 100
  end.

(** [p.IsValid()]: one of the named levels. *)
Definition IsValid (p : Priority) : bool := bool_decide (p <> Invalid).

(** [p < q] on priorities. *)
Definition below (p q : Priority) : bool := (rank p <? rank q)%Z.

End level.

(** ** Package message *)

Module message.

(** An annotation value ([interface{}] in the source). *)
Definition Value : Type := string.

(** [message.Fields], a map from keys to values. *)
Abbreviation Fields := (gmap string string).

(** The [Composer] interface. [Priority] only reads the receiver and
    [SetPriority] updates it and returns its error; the other methods may
    update the receiver and may panic. [Raw] returns the structured form. *)
Class Composer (T : Type) : Type := {
  String : Obj T string;
  Raw : Obj T Fields;
  Loggable : Obj T bool;
  Annotate : string -> Value -> Obj T error;
  Priority : T -> level.Priority;
  SetPriority : level.Priority -> T -> error * T
}.

(** *** Concrete composers *)

(** Modelled from the spec: the concrete composers that [NewDefaultMessage],
    [NewFields], [NewSimpleFields] and [NewErrorMessage] build; their files are
    not among the sources. Per the spec a composer renders to a string, has a
    structured form, is loggable depending on its content (an empty string, an
    empty field map and a nil error are not), holds a priority that rejects
    invalid values, and rejects an annotation whose key already exists. *)
Inductive payload : Type :=
| Text (s : string)
| Structured (msg : string)
| Failure (err : error).

(** Modelled from the spec: a concrete composer: its content, its
    annotations (for a field map, the fields themselves) and the priority it
    holds. *)
Record concreteMessage : Type := mkConcrete {
  content : payload;
  annotations : Fields;
  Level : level.Priority
}.

(** Modelled from the spec: the display string. The spec fixes the text of
    a string message and of an error; for a field map it only asks for some
    rendering, here [key='value'] pairs. *)
Definition renderFields (f : Fields) : string :=
  String.concat " "
    (map (fun kv : string * string => kv.1 +:+ "='" +:+ kv.2 +:+ "'") (map_to_list f)).

(** Modelled from the spec: [String()] of a concrete composer. *)
Definition concrete_String (m : concreteMessage) : string :=
  match content m with
  | Text s => s
  | Structured msg => if decide (msg = "") then renderFields (annotations m)
                      else msg +:+ " " +:+ renderFields (annotations m)
  | Failure None => ""
  | Failure (Some e) => e
  end.

(** Modelled from the spec: [Raw()], the structured form with the
    annotations. *)
Definition concrete_Raw (m : concreteMessage) : Fields :=
  match content m with
  | Text s => <["message" := s]> (annotations m)
  | Structured msg => if decide (msg = "") then annotations m
                      else <["message" := msg]> (annotations m)
  | Failure None => annotations m
  | Failure (Some e) => <["error" := e]> (annotations m)
  end.

(** Modelled from the spec: [Loggable()]: an empty string, an empty field
    map and a nil error are not loggable. *)
Definition concrete_Loggable (m : concreteMessage) : bool :=
  match content m with
  | Text s => bool_decide (s <> "")
  | Structured msg => bool_decide (msg <> "") || bool_decide (annotations m <> ∅)
  | Failure err => bool_decide (err <> None)
  end.

(** Modelled from the spec: [Annotate]: a key that already exists is an
    error, not a silent overwrite. *)
Definition concrete_Annotate (k : string) (v : Value) (m : concreteMessage)
  : error * concreteMessage :=
  match annotations m !! k with
  | Some _ => (Some ("key '" +:+ k +:+ "' already exists"), m)
  | None => (None, mkConcrete (content m) (<[k := v]> (annotations m)) (Level m))
  end.

(** Modelled from the spec: [SetPriority]: an invalid value is rejected. *)
Definition concrete_SetPriority (p : level.Priority) (m : concreteMessage)
  : error * concreteMessage :=
  if level.IsValid p then (None, mkConcrete (content m) (annotations m) p)
  else (Some "invalid priority", m).

#[global] Instance concrete_Composer : Composer concreteMessage := {|
  String m := (Val (concrete_String m), m);
  Raw m := (Val (concrete_Raw m), m);
  Loggable m := (Val (concrete_Loggable m), m);
  Annotate k v m := let (e, m') := concrete_Annotate k v m in (Val e, m');
  Priority := Level;
  SetPriority := concrete_SetPriority
|}.

(** Modelled from the spec: the constructors of the concrete composers, at
    the given priority. *)
Definition NewDefaultMessage (p : level.Priority) (s : string) : concreteMessage :=
  mkConcrete (Text s) ∅ p.

(** Modelled from the spec: the composer of a field map. *)
Definition NewFields (p : level.Priority) (f : Fields) : concreteMessage :=
  mkConcrete (Structured "") f p.

(** Modelled from the spec: the composer of a field map, without metadata. *)
Definition NewSimpleFields (p : level.Priority) (f : Fields) : concreteMessage :=
  mkConcrete (Structured "") f p.

(** Modelled from the spec: the composer of an error; a nil error gives a
    composer that is not loggable. *)
Definition NewErrorMessage (p : level.Priority) (err : error) : concreteMessage :=
  mkConcrete (Failure err) ∅ p.

(** An interface value whose dynamic type is one of two implementations. *)
#[global] Instance sum_Composer {A B} `{Composer A, Composer B} : Composer (A + B) := {|
  String x := match x with
              | inl a => let (r, a') := String a in (r, inl a')
              | inr b => let (r, b') := String b in (r, inr b')
              end;
  Raw x := match x with
           | inl a => let (r, a') := Raw a in (r, inl a')
           | inr b => let (r, b') := Raw b in (r, inr b')
           end;
  Loggable x := match x with
                | inl a => let (r, a') := Loggable a in (r, inl a')
                | inr b => let (r, b') := Loggable b in (r, inr b')
                end;
  Annotate k v x := match x with
                    | inl a => let (r, a') := Annotate k v a in (r, inl a')
                    | inr b => let (r, b') := Annotate k v b in (r, inr b')
                    end;
  Priority x := match x with inl a => Priority a | inr b => Priority b end;
  SetPriority p x := match x with
                     | inl a => let (r, a') := SetPriority p a in (r, inl a')
                     | inr b => let (r, b') := SetPriority p b in (r, inr b')
                     end
|}.

(** *** Lazy composers (function.go) *)

(** [type FieldsProducer func() Fields] *)
Abbreviation FieldsProducer := (Func (gmap string string)).

(** [fieldsProducerMessage]. [fp] may be nil; [cached] is nil until the first
    resolution and from then on holds the composer that [NewFields] built. *)
Record fieldsProducerMessage : Type := mkFieldsProducerMessage {
  fp_fp : option FieldsProducer;
  fp_cached : option concreteMessage;
  fp_level : level.Priority
}.

Definition fp_set_fp (f : option FieldsProducer) (fp : fieldsProducerMessage) :=
  mkFieldsProducerMessage f (fp_cached fp) (fp_level fp).
Definition fp_set_cached (c : option concreteMessage) (fp : fieldsProducerMessage) :=
  mkFieldsProducerMessage (fp_fp fp) c (fp_level fp).
Definition fp_set_level (p : level.Priority) (fp : fieldsProducerMessage) :=
  mkFieldsProducerMessage (fp_fp fp) (fp_cached fp) p.

Definition NewFieldsProducerMessage (p : level.Priority) (fp : option FieldsProducer)
  : fieldsProducerMessage :=
  mkFieldsProducerMessage fp None p.

(** A struct literal without [level] leaves it at the zero value. *)
Definition MakeFieldsProducerMessage (fp : option FieldsProducer) : fieldsProducerMessage :=
  mkFieldsProducerMessage fp None level.Invalid.

(** The closure [func() Fields { return mp() }]: never nil itself; calling it
    calls [mp], which panics when [mp] is nil. *)
Definition convertedProducer (mp : option (Func (gmap string string))) : FieldsProducer :=
  match mp with
  | Some f => f
  | None => mkFunc 0 (fun _ => Panicked nilDereference)
  end.

Definition MakeConvertedFieldsProducer (mp : option (Func (gmap string string)))
  : fieldsProducerMessage :=
  MakeFieldsProducerMessage (Some (convertedProducer mp)).

Definition NewConvertedFieldsProducer (p : level.Priority)
  (mp : option (Func (gmap string string))) : fieldsProducerMessage :=
  NewFieldsProducerMessage p (Some (convertedProducer mp)).

Definition fieldsProducerMessage_resolve : Obj fieldsProducerMessage unit := fun fp =>
  match fp_cached fp with
  | None =>
      match fp_fp fp with
      | None => (Val tt, fp_set_cached (Some (NewFields (fp_level fp) ∅)) fp)
      | Some _ =>
          (let* f := zoom fp_fp fp_set_fp call in
           fun fp => (Val tt, fp_set_cached (Some (NewFields (fp_level fp) f)) fp)) fp
      end
  | Some _ => (Val tt, fp)
  end.

Definition fieldsProducerMessage_Annotate (k : string) (v : Value)
  : Obj fieldsProducerMessage error :=
  let* _ := fieldsProducerMessage_resolve in
  zoom fp_cached fp_set_cached (deref (Annotate k v)).

Definition fieldsProducerMessage_SetPriority (p : level.Priority) (fp : fieldsProducerMessage)
  : error * fieldsProducerMessage :=
  if negb (level.IsValid p) then (Some "invalid level", fp)
  else
    let fp := fp_set_level p fp in
    match fp_cached fp with
    | Some c => let (e, c') := SetPriority (fp_level fp) c in (e, fp_set_cached (Some c') fp)
    | None => (None, fp)
    end.

Definition fieldsProducerMessage_Loggable : Obj fieldsProducerMessage bool := fun fp =>
  match fp_fp fp with
  | None => (Val false, fp)
  | Some _ =>
      (let* _ := fieldsProducerMessage_resolve in
       zoom fp_cached fp_set_cached (deref Loggable)) fp
  end.

Definition fieldsProducerMessage_Priority (fp : fieldsProducerMessage) : level.Priority :=
  fp_level fp.

Definition fieldsProducerMessage_String : Obj fieldsProducerMessage string :=
  let* _ := fieldsProducerMessage_resolve in
  zoom fp_cached fp_set_cached (deref String).

Definition fieldsProducerMessage_Raw : Obj fieldsProducerMessage Fields :=
  let* _ := fieldsProducerMessage_resolve in
  zoom fp_cached fp_set_cached (deref Raw).

#[global] Instance fieldsProducerMessage_Composer : Composer fieldsProducerMessage := {|
  String := fieldsProducerMessage_String;
  Raw := fieldsProducerMessage_Raw;
  Loggable := fieldsProducerMessage_Loggable;
  Annotate := fieldsProducerMessage_Annotate;
  Priority := fieldsProducerMessage_Priority;
  SetPriority := fieldsProducerMessage_SetPriority
|}.

Section ComposerProducer.

(** The dynamic type of the composers that the wrapped function returns. *)
Context {C : Type} `{Composer C}.

(** [type ComposerProducer func() Composer]; the function may return nil. *)
Definition ComposerProducer : Type := Func (option C).

(** [composerProducerMessage]. [cached] is nil, the composer the function
    returned, or the empty composer that [NewSimpleFields] built. *)
Record composerProducerMessage : Type := mkComposerProducerMessage {
  cp_cp : option ComposerProducer;
  cp_cached : option (C + concreteMessage);
  cp_level : level.Priority
}.

Definition cp_set_cp (f : option ComposerProducer) (cp : composerProducerMessage) :=
  mkComposerProducerMessage f (cp_cached cp) (cp_level cp).
Definition cp_set_cached (c : option (C + concreteMessage)) (cp : composerProducerMessage) :=
  mkComposerProducerMessage (cp_cp cp) c (cp_level cp).
Definition cp_set_level (p : level.Priority) (cp : composerProducerMessage) :=
  mkComposerProducerMessage (cp_cp cp) (cp_cached cp) p.

Definition NewComposerProducerMessage (p : level.Priority) (cp : option ComposerProducer)
  : composerProducerMessage :=
  mkComposerProducerMessage cp None p.

Definition MakeComposerProducerMessage (cp : option ComposerProducer)
  : composerProducerMessage :=
  mkComposerProducerMessage cp None level.Invalid.

(** The returned interface value as stored in [cached]. *)
Definition produced (r : option C) : option (C + concreteMessage) :=
  match r with
  | None => None
  | Some c => Some (inl c)
  end.

Definition composerProducerMessage_resolve : Obj composerProducerMessage unit := fun cp =>
  match cp_cached cp with
  | None =>
      (let* r := zoom cp_cp cp_set_cp call in
       fun cp =>
         let cp := cp_set_cached (produced r) cp in
         match cp_cached cp with
         | None => (Val tt, cp_set_cached (Some (inr (NewSimpleFields (cp_level cp) ∅))) cp)
         | Some c =>
             let (_, c') := SetPriority (cp_level cp) c in
             (Val tt, cp_set_cached (Some c') cp)
         end) cp
  | Some _ => (Val tt, cp)
  end.

Definition composerProducerMessage_Annotate (k : string) (v : Value)
  : Obj composerProducerMessage error :=
  let* _ := composerProducerMessage_resolve in
  zoom cp_cached cp_set_cached (deref (Annotate k v)).

Definition composerProducerMessage_SetPriority (p : level.Priority) (cp : composerProducerMessage)
  : error * composerProducerMessage :=
  if negb (level.IsValid p) then (Some "invalid level", cp)
  else
    let cp := cp_set_level p cp in
    match cp_cached cp with
    | Some c => let (e, c') := SetPriority (cp_level cp) c in (e, cp_set_cached (Some c') cp)
    | None => (None, cp)
    end.

Definition composerProducerMessage_Loggable : Obj composerProducerMessage bool := fun cp =>
  match cp_cp cp with
  | None => (Val false, cp)
  | Some _ =>
      (let* _ := composerProducerMessage_resolve in
       zoom cp_cached cp_set_cached (deref Loggable)) cp
  end.

Definition composerProducerMessage_Priority (cp : composerProducerMessage) : level.Priority :=
  cp_level cp.

Definition composerProducerMessage_String : Obj composerProducerMessage string :=
  let* _ := composerProducerMessage_resolve in
  zoom cp_cached cp_set_cached (deref String).

Definition composerProducerMessage_Raw : Obj composerProducerMessage Fields :=
  let* _ := composerProducerMessage_resolve in
  zoom cp_cached cp_set_cached (deref Raw).

#[global] Instance composerProducerMessage_Composer : Composer composerProducerMessage := {|
  String := composerProducerMessage_String;
  Raw := composerProducerMessage_Raw;
  Loggable := composerProducerMessage_Loggable;
  Annotate := composerProducerMessage_Annotate;
  Priority := composerProducerMessage_Priority;
  SetPriority := composerProducerMessage_SetPriority
|}.

End ComposerProducer.

Arguments ComposerProducer C : clear implicits.
Arguments composerProducerMessage C : clear implicits.

(** [type ErrorProducer func() error] *)
Abbreviation ErrorProducer := (Func error).

(** [errorProducerMessage]. [cached] is nil until the first resolution and
    from then on holds the composer that [NewErrorMessage] built. *)
Record errorProducerMessage : Type := mkErrorProducerMessage {
  ep_ep : option ErrorProducer;
  ep_cached : option concreteMessage;
  ep_level : level.Priority
}.

Definition ep_set_ep (f : option ErrorProducer) (ep : errorProducerMessage) :=
  mkErrorProducerMessage f (ep_cached ep) (ep_level ep).
Definition ep_set_cached (c : option concreteMessage) (ep : errorProducerMessage) :=
  mkErrorProducerMessage (ep_ep ep) c (ep_level ep).
Definition ep_set_level (p : level.Priority) (ep : errorProducerMessage) :=
  mkErrorProducerMessage (ep_ep ep) (ep_cached ep) p.

Definition NewErrorProducerMessage (p : level.Priority) (ep : option ErrorProducer)
  : errorProducerMessage :=
  mkErrorProducerMessage ep None p.

Definition MakeErrorProducerMessage (ep : option ErrorProducer) : errorProducerMessage :=
  mkErrorProducerMessage ep None level.Invalid.

Definition errorProducerMessage_resolve : Obj errorProducerMessage unit := fun ep =>
  match ep_cached ep with
  | None =>
      (let* e := zoom ep_ep ep_set_ep call in
       fun ep => (Val tt, ep_set_cached (Some (NewErrorMessage (ep_level ep) e)) ep)) ep
  | Some _ => (Val tt, ep)
  end.

Definition errorProducerMessage_Annotate (k : string) (v : Value)
  : Obj errorProducerMessage error :=
  let* _ := errorProducerMessage_resolve in
  zoom ep_cached ep_set_cached (deref (Annotate k v)).

Definition errorProducerMessage_SetPriority (p : level.Priority) (ep : errorProducerMessage)
  : error * errorProducerMessage :=
  if negb (level.IsValid p) then (Some "invalid level", ep)
  else
    let ep := ep_set_level p ep in
    match ep_cached ep with
    | Some c => let (e, c') := SetPriority (ep_level ep) c in (e, ep_set_cached (Some c') ep)
    | None => (None, ep)
    end.

Definition errorProducerMessage_Loggable : Obj errorProducerMessage bool := fun ep =>
  match ep_ep ep with
  | None => (Val false, ep)
  | Some _ =>
      (let* _ := errorProducerMessage_resolve in
       zoom ep_cached ep_set_cached (deref Loggable)) ep
  end.

Definition errorProducerMessage_Priority (ep : errorProducerMessage) : level.Priority :=
  ep_level ep.

Definition errorProducerMessage_String : Obj errorProducerMessage string :=
  let* _ := errorProducerMessage_resolve in
  zoom ep_cached ep_set_cached (deref String).

Definition errorProducerMessage_Raw : Obj errorProducerMessage Fields :=
  let* _ := errorProducerMessage_resolve in
  zoom ep_cached ep_set_cached (deref Raw).

#[global] Instance errorProducerMessage_Composer : Composer errorProducerMessage := {|
  String := errorProducerMessage_String;
  Raw := errorProducerMessage_Raw;
  Loggable := errorProducerMessage_Loggable;
  Annotate := errorProducerMessage_Annotate;
  Priority := errorProducerMessage_Priority;
  SetPriority := errorProducerMessage_SetPriority
|}.

(** *** Conversion (interface.go) *)

(** Modelled from the spec: [NewLineMessage], whose file is not among the
    sources; the joined-argument message, not loggable without arguments. *)
Definition NewLineMessage (p : level.Priority) (args : list string) : concreteMessage :=
  mkConcrete (Text (String.concat " " args)) ∅ p.

Section Convert.

(** The dynamic type of the caller's own composers. *)
Context {C : Type} `{Composer C}.

(** The argument of [convert], an [interface{}], by the case of the type
    switch that it selects. A function value in an interface may be a nil
    function of its type. The slice cases and the default case, which build
    group and formatted composers, are not represented. *)
Inductive Input : Type :=
| InComposer (message : C)
| InString (message : string)
| InError (message : string)
| InFieldsProducer (message : option FieldsProducer)
| InFuncFields (message : option (Func (gmap string string)))
| InComposerProducer (message : option (ComposerProducer C))
| InFuncComposer (message : option (Func (option C)))
| InFuncMap (message : option (Func (gmap string string)))
| InErrorProducer (message : option ErrorProducer)
| InFuncError (message : option (Func error))
| InFields (message : gmap string string)
| InMap (message : gmap string string)
| InNil.

(** The [Composer] that [convert] returns, by its dynamic type. *)
Inductive Message : Type :=
| OfComposer (m : C)
| OfConcrete (m : concreteMessage)
| OfFieldsProducer (m : fieldsProducerMessage)
| OfComposerProducer (m : composerProducerMessage C)
| OfErrorProducer (m : errorProducerMessage).

Definition convert (p : level.Priority) (message : Input) (overRideLevel : bool) : Message :=
  match message with
  | InComposer message =>
      if overRideLevel || bool_decide (Priority message <> level.Invalid)
      then OfComposer (SetPriority p message).2
      else OfComposer message
  | InString message => OfConcrete (NewDefaultMessage p message)
  | InError message => OfConcrete (NewErrorMessage p (Some message))
  | InFieldsProducer message => OfFieldsProducer (NewFieldsProducerMessage p message)
  | InFuncFields message => OfFieldsProducer (NewFieldsProducerMessage p message)
  | InComposerProducer message => OfComposerProducer (NewComposerProducerMessage p message)
  | InFuncComposer message => OfComposerProducer (NewComposerProducerMessage p message)
  | InFuncMap message => OfFieldsProducer (NewConvertedFieldsProducer p message)
  | InErrorProducer message => OfErrorProducer (NewErrorProducerMessage p message)
  | InFuncError message => OfErrorProducer (NewErrorProducerMessage p message)
  | InFields message => OfConcrete (NewFields p message)
  | InMap message => OfConcrete (NewFields p message)
  | InNil => OfConcrete (NewLineMessage p [])
  end.

Definition ConvertToComposer (p : level.Priority) (message : Input) : Message :=
  convert p message true.

Definition ConvertToComposerWithLevel (p : level.Priority) (message : Input) : Message :=
  convert p message false.

(** Method dispatch on the dynamic type. *)
Definition dispatch {A} (fC : Obj C A) (fK : Obj concreteMessage A)
  (fF : Obj fieldsProducerMessage A) (fP : Obj (composerProducerMessage C) A)
  (fE : Obj errorProducerMessage A) : Obj Message A := fun m =>
  match m with
  | OfComposer c => let (r, c') := fC c in (r, OfComposer c')
  | OfConcrete c => let (r, c') := fK c in (r, OfConcrete c')
  | OfFieldsProducer c => let (r, c') := fF c in (r, OfFieldsProducer c')
  | OfComposerProducer c => let (r, c') := fP c in (r, OfComposerProducer c')
  | OfErrorProducer c => let (r, c') := fE c in (r, OfErrorProducer c')
  end.

#[global] Instance Message_Composer : Composer Message := {|
  String := dispatch String String String String String;
  Raw := dispatch Raw Raw Raw Raw Raw;
  Loggable := dispatch Loggable Loggable Loggable Loggable Loggable;
  Annotate k v := dispatch (Annotate k v) (Annotate k v) (Annotate k v) (Annotate k v)
                    (Annotate k v);
  Priority m := match m with
                | OfComposer c => Priority c
                | OfConcrete c => Priority c
                | OfFieldsProducer c => Priority c
                | OfComposerProducer c => Priority c
                | OfErrorProducer c => Priority c
                end;
  SetPriority p m := match m with
                     | OfComposer c => let (e, c') := SetPriority p c in (e, OfComposer c')
                     | OfConcrete c => let (e, c') := SetPriority p c in (e, OfConcrete c')
                     | OfFieldsProducer c =>
                         let (e, c') := SetPriority p c in (e, OfFieldsProducer c')
                     | OfComposerProducer c =>
                         let (e, c') := SetPriority p c in (e, OfComposerProducer c')
                     | OfErrorProducer c =>
                         let (e, c') := SetPriority p c in (e, OfErrorProducer c')
                     end
|}.

(** How often the function wrapped by a converted message has been invoked. *)
Definition wrappedInvocations (m : Message) : nat :=
  match m with
  | OfFieldsProducer m => invocations (fp_fp m)
  | OfComposerProducer m => invocations (cp_cp m)
  | OfErrorProducer m => invocations (ep_ep m)
  | OfComposer _ | OfConcrete _ => 0
  end.

End Convert.

Arguments Input C : clear implicits.
Arguments Message C : clear implicits.

(** *** Sequences of method calls *)

(** A call of one of the methods of [Composer]. *)
Inductive Op : Type :=
| CallString
| CallRaw
| CallLoggable
| CallAnnotate (k : string) (v : Value)
| CallPriority
| CallSetPriority (p : level.Priority).

(** The calls that resolve a lazy composer. *)
Definition resolving (o : Op) : bool :=
  match o with
  | CallString | CallRaw | CallLoggable | CallAnnotate _ _ => true
  | CallPriority | CallSetPriority _ => false
  end.

(** One call on the receiver [m]; the returned value is dropped. *)
Definition perform {T} `{Composer T} (o : Op) : Obj T unit := fun m =>
  match o with
  | CallString => (let* _ := String in oret tt) m
  | CallRaw => (let* _ := Raw in oret tt) m
  | CallLoggable => (let* _ := Loggable in oret tt) m
  | CallAnnotate k v => (let* _ := Annotate k v in oret tt) m
  | CallPriority => (Val tt, m)
  | CallSetPriority p => (Val tt, (SetPriority p m).2)
  end.

(** The calls of [ops] one after the other; a panic ends the sequence. *)
Fixpoint performAll {T} `{Composer T} (ops : list Op) : Obj T unit :=
  match ops with
  | [] => oret tt
  | o :: ops' => let* _ := perform o in performAll ops'
  end.

(** *** The contract of [SetPriority] *)

(** What the spec asks of every composer's priority: it can be set to a valid
    priority, and an invalid one is rejected and leaves it as it is. *)
Class LawfulPriority (T : Type) `{Composer T} : Prop := {
  SetPriority_valid : forall p m,
    level.IsValid p = true -> Priority (SetPriority p m).2 = p;
  SetPriority_invalid : forall p m,
    level.IsValid p = false -> Priority (SetPriority p m).2 = Priority m
}.

(** The priority that a sequence of calls leaves on a composer that held
    [p]: the last valid priority that was set, or [p]. *)
Definition lastPriority (p : level.Priority) (ops : list Op) : level.Priority :=
  fold_left (fun acc o => match o with
                          | CallSetPriority q => if level.IsValid q then q else acc
                          | _ => acc
                          end) ops p.

(** *** Errors behind an error producer (function.go) *)

(** [ep.Error()] *)
Definition errorProducerMessage_Error : Obj errorProducerMessage string :=
  errorProducerMessage_String.

(** [ep.Cause()]: the type switch on [ep.cached]. The composer that
    [NewErrorMessage] built is an [*errorMessage] and yields its error; a
    composer of another content is no error and yields nil, as does a nil
    [cached]. *)
Definition errorProducerMessage_Cause : Obj errorProducerMessage error :=
  let* _ := errorProducerMessage_resolve in
  fun ep =>
    (Val (match ep_cached ep with
          | Some c => match content c with
                      | Failure err => err
                      | Text _ | Structured _ => None
                      end
          | None => None
          end), ep).

(** [ep.Unwrap()] *)
Definition errorProducerMessage_Unwrap : Obj errorProducerMessage error :=
  errorProducerMessage_Cause.

(** [ep.Format(s, verb)]: with the verb v and the flag + it prints
    [errors.Cause(ep)], which calls [ep.Cause()], and writes [ep.String()];
    with the verb v without the flag, s or q it writes [ep.Error()]; with any
    other verb it does nothing. What is written to [s] is not observed. *)
Definition errorProducerMessage_Format (plus : bool) (verb : ascii)
  : Obj errorProducerMessage unit :=
  if Ascii.eqb verb "v" && plus then
    let* _ := errorProducerMessage_Cause in
    let* _ := errorProducerMessage_String in
    oret tt
  else if Ascii.eqb verb "v" || Ascii.eqb verb "s" || Ascii.eqb verb "q" then
    let* _ := errorProducerMessage_Error in
    oret tt
  else oret tt.

(** *** IsStructured (interface.go) *)

(** [IsStructured], a type switch on the dynamic type of the composer: one
    instance for each case. It may resolve a lazy composer, so it returns the
    composer with its answer. *)
Class TypeSwitch (T : Type) : Type := IsStructured : Obj T bool.

(** The [default] case, for the types of other packages, and for a nil
    interface. *)
Definition IsStructured_default {T : Type} : Obj T bool := oret true.

(** [IsStructured(m.cached)] for a cached composer that may be nil. *)
Definition IsStructured_cached {T : Type} `{TypeSwitch T} : Obj (option T) bool := fun c =>
  match c with
  | None => (Val true, None)
  | Some x => let (r, x') := IsStructured x in (r, Some x')
  end.

(** The cases [*stringMessage], [*lineMessenger] (false) and [*errorMessage],
    [*fieldMessage] (true). *)
#[global] Instance concrete_Structured : TypeSwitch concreteMessage := fun m =>
  (Val (match content m with
        | Text _ => false
        | Structured _ | Failure _ => true
        end), m).

#[global] Instance sum_Structured {A B} `{TypeSwitch A, TypeSwitch B} : TypeSwitch (A + B) :=
  fun x => match x with
           | inl a => let (r, a') := IsStructured a in (r, inl a')
           | inr b => let (r, b') := IsStructured b in (r, inr b')
           end.

(** [case *fieldsProducerMessage: m.resolve(); return IsStructured(m.cached)] *)
#[global] Instance fieldsProducerMessage_Structured : TypeSwitch fieldsProducerMessage :=
  let* _ := fieldsProducerMessage_resolve in
  zoom fp_cached fp_set_cached IsStructured_cached.

(** [case *composerProducerMessage: m.resolve(); return IsStructured(m.cached)] *)
#[global] Instance composerProducerMessage_Structured {C} `{Composer C, TypeSwitch C} :
  TypeSwitch (composerProducerMessage C) :=
  let* _ := composerProducerMessage_resolve in
  zoom cp_cached cp_set_cached IsStructured_cached.

(** [case *errorProducerMessage: m.resolve(); return IsStructured(m.cached)] *)
#[global] Instance errorProducerMessage_Structured : TypeSwitch errorProducerMessage :=
  let* _ := errorProducerMessage_resolve in
  zoom ep_cached ep_set_cached IsStructured_cached.

(** [IsStructured] of a composer that [convert] returned. *)
#[global] Instance Message_Structured {C} `{Composer C, TypeSwitch C} : TypeSwitch (Message C) :=
  dispatch IsStructured IsStructured IsStructured IsStructured IsStructured.

(** *** Every way into resolution *)

(** A call on a lazy composer from outside: one of the methods of
    [Composer], or [IsStructured]. *)
Inductive LazyCall : Type :=
| ByMethod (o : Op)
| ByIsStructured.

(** A call on an error producer: those, or one of its own methods [Error],
    [Cause], [Unwrap] and [Format]. *)
Inductive ErrorCall : Type :=
| ByLazy (c : LazyCall)
| ByError
| ByCause
| ByUnwrap
| ByFormat (plus : bool) (verb : ascii).

(** The calls that reach [resolve]. *)
Definition resolvesLazy (c : LazyCall) : bool :=
  match c with
  | ByMethod o => resolving o
  | ByIsStructured => true
  end.

Definition resolvesError (c : ErrorCall) : bool :=
  match c with
  | ByLazy c => resolvesLazy c
  | ByError | ByCause | ByUnwrap => true
  | ByFormat _ verb => Ascii.eqb verb "v" || Ascii.eqb verb "s" || Ascii.eqb verb "q"
  end.

(** One call on the receiver; the returned value is dropped. *)
Definition enter {T} `{Composer T, TypeSwitch T} (c : LazyCall) : Obj T unit :=
  match c with
  | ByMethod o => perform o
  | ByIsStructured => let* _ := IsStructured in oret tt
  end.

Definition enterError (c : ErrorCall) : Obj errorProducerMessage unit :=
  match c with
  | ByLazy c => enter c
  | ByError => let* _ := errorProducerMessage_Error in oret tt
  | ByCause => let* _ := errorProducerMessage_Cause in oret tt
  | ByUnwrap => let* _ := errorProducerMessage_Unwrap in oret tt
  | ByFormat plus verb => errorProducerMessage_Format plus verb
  end.

(** The calls of [cs] one after the other by a caller that recovers from
    every panic: the receiver as the calls leave it. The state at a panic is
    what a caller that does not recover is left with. *)
Definition recovering {K T} (step : K -> Obj T unit) (cs : list K) (m : T) : T :=
  fold_left (fun m c => (step c m).2) cs m.

(** A function value that returns whenever it is called. *)
Definition neverPanics {A} (f : Func A) : Prop :=
  forall n, exists v, body f n = Val v.

End message.

(** ** Package send *)

Module send.

Import message.

(** [LevelInfo{Default, Threshold}] *)
Record LevelInfo : Type := mkLevelInfo {
  Default : level.Priority;
  Threshold : level.Priority
}.

(** Modelled from the spec: [LevelInfo.Valid], whose file is not among the
    sources; both fields must be valid priorities. *)
Definition Valid (l : LevelInfo) : bool :=
  level.IsValid (Default l) && level.IsValid (Threshold l).

(** Modelled from the spec: the effective priority of [LevelInfo.ShouldLog],
    whose file is not among the sources. The spec: compute the composer's effective priority (if Invalid,
    substitute the sender's Default); reject if the message reports
    not-loggable; reject if the effective priority is below the Threshold;
    otherwise accept; Emergency is treated as above any threshold. *)
Definition effectivePriority {T} `{Composer T} (l : LevelInfo) (m : T) : level.Priority :=
  if decide (Priority m = level.Invalid) then Default l else Priority m.

(** Modelled from the spec: [LevelInfo.ShouldLog], the decision above in the
    order the spec gives it. *)
Definition ShouldLog {T} `{Composer T} (l : LevelInfo) : Obj T bool := fun m =>
  let p := effectivePriority l m in
  (let* loggable := Loggable in
   oret (if negb loggable then false
         else if decide (p = level.Emergency) then true
         else negb (level.below p (Threshold l)))) m.

(** *** The store of senders and the events of a run *)

(** The address of a sender that carries its own state. *)
Definition loc : Type := nat.

(** Modelled from the spec: the state that every backend embeds ([*Base],
    whose file is not among the sources): a name and a LevelInfo. The
    backend's own behaviour is given by [closeResult], what [Close] returns,
    and [transmit], what handing a rendered message to the backend returns. *)
Record Base : Type := mkBase {
  name : string;
  levelInfo : LevelInfo;
  closeResult : error;
  transmit : string -> error
}.

Abbreviation Store := (loc -> Base).

(** What a run does that an observer can see, in order. [T] is the type of
    the messages. [EvSend] is a call of a backend's [Send], [EvAnnotate] a
    call of [Annotate] by the annotating sender, [EvHandle] a call of a
    sender's error handler. The last six are the logger's: its lock and its
    reads and writes of the field [impl]. *)
Inductive Event (T : Type) : Type :=
| EvSend (l : loc) (m : T)
| EvAnnotate (k : string) (v : string)
| EvTransmit (l : loc) (text : string)
| EvHandle (l : loc) (err : string) (m : T)
| EvIntercept (filter : nat) (m : T)
| EvClose (l : loc)
| EvPanic (v : string)
| EvExit (code : Z)
| EvRLock
| EvRUnlock
| EvLock
| EvUnlock
| EvLoadImpl
| EvStoreImpl.
Arguments EvSend {T} l m.
Arguments EvAnnotate {T} k v.
Arguments EvTransmit {T} l text.
Arguments EvHandle {T} l err m.
Arguments EvIntercept {T} filter m.
Arguments EvClose {T} l.
Arguments EvPanic {T} v.
Arguments EvExit {T} code.
Arguments EvRLock {T}.
Arguments EvRUnlock {T}.
Arguments EvLock {T}.
Arguments EvUnlock {T}.
Arguments EvLoadImpl {T}.
Arguments EvStoreImpl {T}.

(** How a call ends without returning: a panic, or [os.Exit]. *)
Inductive abort : Type :=
| Panic (v : string)
| Exit (code : Z).

Inductive result (A : Type) : Type :=
| Returned (a : A)
| Aborted (how : abort).
Arguments Returned {A} a.
Arguments Aborted {A} how.

(** A call that reads and updates the store of senders and emits events. *)
Definition M (T A : Type) : Type := Store -> result A * Store * list (Event T).

Definition ret {T A} (a : A) : M T A := fun σ => (Returned a, σ, []).

Definition bind {T A B} (c : M T A) (k : A -> M T B) : M T B := fun σ =>
  match c σ with
  | (Returned a, σ1, e1) => let '(r, σ2, e2) := k a σ1 in (r, σ2, e1 ++ e2)
  | (Aborted how, σ1, e1) => (Aborted how, σ1, e1)
  end.

Notation "'let!' x ':=' c 'in' k" := (bind c (fun x => k))
  (at level 10, x pattern, c at level 100, k at level 200).

Definition emit {T} (e : Event T) : M T unit := fun σ => (Returned tt, σ, [e]).

(** [panic(v)] and [os.Exit(code)]. *)
Definition panic {T A} (v : string) : M T A := fun σ => (Aborted (Panic v), σ, [EvPanic v]).
Definition osExit {T A} (code : Z) : M T A := fun σ => (Aborted (Exit code), σ, [EvExit code]).

(** [defer d] before [body]: [d] runs when [body] returns and when it panics,
    not when the process exits. *)
Definition defer {T A} (d : M T unit) (body : M T A) : M T A := fun σ =>
  match body σ with
  | (Aborted (Exit code), σ1, e1) => (Aborted (Exit code), σ1, e1)
  | (r, σ1, e1) => let '(_, σ2, e2) := d σ1 in (r, σ2, e1 ++ e2)
  end.

(** A method call on the message [m]; a panic of the method is a panic of
    the run. *)
Definition onMessage {T A} (c : Obj T A) (m : T) : M T (A * T) := fun σ =>
  match c m with
  | (Val a, m') => (Returned (a, m'), σ, [])
  | (Panicked v, _) => (Aborted (Panic v), σ, [EvPanic v])
  end.

(** The events of the logger's lock and of its field [impl]. *)
Definition isLockEvent {T} (e : Event T) : bool :=
  match e with
  | EvRLock | EvRUnlock | EvLock | EvUnlock | EvLoadImpl | EvStoreImpl => true
  | _ => false
  end.

Definition lockEvents {T} (evs : list (Event T)) : list (Event T) :=
  List.filter isLockEvent evs.

(** How often [Close] of the sender at [l] has been called in [evs]. *)
Definition isClose {T} (l : loc) (e : Event T) : bool :=
  match e with
  | EvClose l' => bool_decide (l' = l)
  | _ => false
  end.

Definition closeCalls {T} (l : loc) (evs : list (Event T)) : nat :=
  length (List.filter (isClose l) evs).

(** The event of the annotation with one entry of a mapping. *)
Definition annotation {T} (kv : string * string) : Event T := EvAnnotate kv.1 kv.2.

(** The parts of what a call yields. *)
Definition resultOf {T A} (x : result A * Store * list (Event T)) : result A := x.1.1.
Definition storeOf {T A} (x : result A * Store * list (Event T)) : Store := x.1.2.
Definition eventsOf {T A} (x : result A * Store * list (Event T)) : list (Event T) := x.2.

(** *** Senders *)

(** A [Sender]: a backend, which embeds a [*Base] that lives in the store, or
    one of the wrappers, which embed the sender they wrap and have no state
    of their own. [filter] names the intercepting function. *)
Inductive Sender : Type :=
| backend (l : loc)
| annotatingSender (inner : Sender) (annotations : gmap string string)
| interceptor (inner : Sender) (filter : nat).

Definition NewAnnotatingSender (s : Sender) (annotations : gmap string string) : Sender :=
  annotatingSender s annotations.

Definition NewInterceptor (sender : Sender) (ifn : nat) : Sender :=
  interceptor sender ifn.

(** The [*Base] that the promoted methods of a sender reach. *)
Fixpoint embedded (s : Sender) : loc :=
  match s with
  | backend l => l
  | annotatingSender inner _ => embedded inner
  | interceptor inner _ => embedded inner
  end.

(** The store after [s.SetLevel(l)] and after [s.SetName(n)]: the field of
    the embedded [*Base] is written. *)
Definition withLevel (s : Sender) (l : LevelInfo) (σ : Store) : Store :=
  let b := σ (embedded s) in
  <[embedded s := mkBase (name b) l (closeResult b) (transmit b)]> σ.

Definition withName (s : Sender) (n : string) (σ : Store) : Store :=
  let b := σ (embedded s) in
  <[embedded s := mkBase n (levelInfo b) (closeResult b) (transmit b)]> σ.

(** What the annotating sender is to do with a composer, stated apart from
    its loop: every annotation of [kvs] is applied in turn, each to the
    composer as the earlier ones left it. [annotatedBy] is the composer after
    all of them, [failuresOf] the errors of those that failed, in order, and
    [annotationsReturn] says that no [Annotate] panics on the way. *)
Definition annotatedBy {T} `{Composer T} (kvs : list (string * string)) (m : T) : T :=
  fold_left (fun m kv => (Annotate kv.1 kv.2 m).2) kvs m.

Fixpoint failuresOf {T} `{Composer T} (kvs : list (string * string)) (m : T) : list string :=
  match kvs with
  | [] => []
  | kv :: kvs' =>
      match Annotate kv.1 kv.2 m with
      | (Val (Some e), m') => e :: failuresOf kvs' m'
      | (_, m') => failuresOf kvs' m'
      end
  end.

Fixpoint annotationsReturn {T} `{Composer T} (kvs : list (string * string)) (m : T) : bool :=
  match kvs with
  | [] => true
  | kv :: kvs' =>
      match Annotate kv.1 kv.2 m with
      | (Val _, m') => annotationsReturn kvs' m'
      | (Panicked _, _) => false
      end
  end.

(** The failure, if any, of the call of [Annotate] at position [i] of the
    loop over [kvs]: the call meets the composer as the calls before it have
    left it. *)
Definition failureAt {T} `{Composer T} (kvs : list (string * string)) (m : T) (i : nat) (kv : string * string)
  : option string :=
  match kv with
  | (k, v) =>
      match (Annotate k v (annotatedBy (take i kvs) m)).1 with
      | Val (Some e) => Some e
      | _ => None
      end
  end.

Section Senders.

Context {T : Type} `{Composer T}.

(** The order in which [range] visits a map; Go leaves it unspecified. *)
Variable range : gmap string string -> list (string * string).

(** Modelled from the spec: the methods of [*Base], promoted to every sender
    that embeds one. [SetLevel] rejects an invalid LevelInfo; the error
    handler is observed through the event [EvHandle]. *)
Definition Name (s : Sender) : M T string := fun σ =>
  (Returned (name (σ (embedded s))), σ, []).

(** Modelled from the spec: [SetName] of the embedded [*Base]. *)
Definition SetName (s : Sender) (n : string) : M T unit := fun σ =>
  (Returned tt, withName s n σ, []).

(** Modelled from the spec: [Level] of the embedded [*Base]. *)
Definition Level (s : Sender) : M T LevelInfo := fun σ =>
  (Returned (levelInfo (σ (embedded s))), σ, []).

(** Modelled from the spec: [SetLevel] rejects an invalid LevelInfo. *)
Definition SetLevel (s : Sender) (l : LevelInfo) : M T error := fun σ =>
  if Valid l then (Returned None, withLevel s l σ, [])
  else (Returned (Some "level settings are not valid"), σ, []).

(** Modelled from the spec: [Close] releases the backend and returns the
    backend's error. *)
Definition Close (s : Sender) : M T error := fun σ =>
  (Returned (closeResult (σ (embedded s))), σ, [EvClose (embedded s)]).

(** Modelled from the spec: [s.ErrorHandler()(err, m)], the handler of the
    embedded [*Base] called with the error and the message. *)
Definition ErrorHandler (s : Sender) (err : string) (m : T) : M T unit :=
  emit (EvHandle (embedded s) err m).

(** The loop of [annotatingSender.Send] over the annotations in the order
    [kvs]: each call of [m.Annotate] is observed as [EvAnnotate]; the result
    is the messages of the failed annotations, in that order. *)
Fixpoint annotateAll (kvs : list (string * string)) (m : T) : M T (list string * T) :=
  match kvs with
  | [] => ret ([], m)
  | (k, v) :: kvs' =>
      let! _ := emit (EvAnnotate k v) in
      let! (err, m) := onMessage (Annotate k v) m in
      let! (errs, m) := annotateAll kvs' m in
      ret (match err with
           | Some e => e :: errs
           | None => errs
           end, m)
  end.

(** [strings.Join(errs, ";\n")] *)
Definition joinErrors (errs : list string) : string :=
  String.concat (";" +:+ "
") errs.

(** [Send]. A backend sends as [twitterLogger.Send] does: it checks
    [ShouldLog], hands the rendered message to the backend and passes a
    failure to the error handler. The message is the caller's object, so the
    call returns it as the methods called on it have left it. The calls of
    the interceptor's function and of the error handler are observed as the
    events [EvIntercept] and [EvHandle]; what the installed functions do in
    turn is not followed. *)
Fixpoint Send (s : Sender) (m : T) : M T T :=
  match s with
  | backend l =>
      let! _ := emit (EvSend l m) in
      let! lv := Level s in
      let! (ok, m) := onMessage (ShouldLog lv) m in
      if ok : bool then
        let! (text, m) := onMessage String m in
        let! _ := emit (EvTransmit l text) in
        fun σ =>
          match transmit (σ l) text with
          | Some err => (let! _ := ErrorHandler s err m in ret m) σ
          | None => ret m σ
          end
      else ret m
  | annotatingSender inner annotations =>
      let! lv := Level inner in
      let! (ok, m) := onMessage (ShouldLog lv) m in
      if negb ok then ret m
      else
        let! (errs, m) := annotateAll (range annotations) m in
        let! _ := (if Nat.ltb 0 (length errs)
                   then ErrorHandler s (joinErrors errs) m
                   else ret tt) in
        Send inner m
  | interceptor inner filter =>
      let! _ := emit (EvIntercept filter m) in
      Send inner m
  end.

End Senders.

End send.

(** ** Package logging *)

Module logging.

Import message send.

(** [Grip]; the lock [mu] is observed through the lock events. *)
Record Grip : Type := mkGrip {
  impl : Sender;
  defaultLevel : level.Priority
}.

Definition MakeGrip (s : Sender) : Grip := mkGrip s level.Info.

Section Logger.

(** The dynamic type of the caller's own composers; the logger handles the
    composers that conversion returns. *)
Context {C : Type} `{Composer C}.
Variable range : gmap string string -> list (string * string).

Abbreviation M' := (M (Message C)).

(** A read and a write of the field [g.impl]. *)
Definition loadImpl (g : Grip) : M' Sender :=
  let! _ := emit EvLoadImpl in ret (impl g).

Definition storeImpl (s : Sender) (g : Grip) : M' Grip :=
  let! _ := emit EvStoreImpl in ret (mkGrip s (defaultLevel g)).

Definition RLock : M' unit := emit EvRLock.
Definition RUnlock : M' unit := emit EvRUnlock.
Definition Lock : M' unit := emit EvLock.
Definition Unlock : M' unit := emit EvUnlock.

Definition Name (g : Grip) : M' string :=
  let! _ := RLock in
  defer RUnlock
    (let! s := loadImpl g in
     send.Name s).

Definition SetName (n : string) (g : Grip) : M' unit :=
  let! _ := RLock in
  defer RUnlock
    (let! s := loadImpl g in
     send.SetName s n).

Definition SetLevel (info : LevelInfo) (g : Grip) : M' error :=
  let! _ := RLock in
  defer RUnlock
    (let! s := loadImpl g in
     let! sl := send.Level s in
     let info := if negb (level.IsValid (Default info))
                 then mkLevelInfo (Default sl) (Threshold info) else info in
     let info := if negb (level.IsValid (Threshold info))
                 then mkLevelInfo (Default info) (Threshold sl) else info in
     let! s := loadImpl g in
     send.SetLevel s info).

Definition Send (m : Input C) (g : Grip) : M' (Message C) :=
  let! _ := RLock in
  defer RUnlock
    (let! s := loadImpl g in
     send.Send range s (ConvertToComposer (defaultLevel g) m)).

(** [SetSender]; it returns its error and the logger as it leaves it. *)
Definition SetSender (s : option Sender) (g : Grip) : M' (error * Grip) :=
  match s with
  | None => ret (Some "cannot set the sender to nil", g)
  | Some s =>
      let! _ := Lock in
      defer Unlock
        (let! cur := loadImpl g in
         let! l := send.Level cur in
         let! err := send.SetLevel s l in
         match err with
         | Some e => ret (Some e, g)
         | None =>
             let! cur := loadImpl g in
             let! err := send.Close cur in
             match err with
             | Some e => ret (Some e, g)
             | None =>
                 let! cur := loadImpl g in
                 let! n := send.Name cur in
                 let! _ := send.SetName s n in
                 let! g := storeImpl s g in
                 ret (None, g)
             end
         end)
  end.

Definition GetSender (g : Grip) : M' Sender :=
  let! _ := RLock in
  defer RUnlock (loadImpl g).

Definition sendPanic (m : Message C) (g : Grip) : M' (Message C) :=
  let! _ := RLock in
  defer RUnlock
    (let! s := loadImpl g in
     let! lv := send.Level s in
     let! (ok, m) := onMessage (ShouldLog lv) m in
     if ok : bool then
       let! s := loadImpl g in
       let! m := send.Send range s m in
       let! (text, m) := onMessage String m in
       panic text
     else ret m).

Definition sendFatal (m : Message C) (g : Grip) : M' (Message C) :=
  let! _ := RLock in
  defer RUnlock
    (let! s := loadImpl g in
     let! lv := send.Level s in
     let! (ok, m) := onMessage (ShouldLog lv) m in
     if ok : bool then
       let! s := loadImpl g in
       let! m := send.Send range s m in
       osExit 1
     else ret m).

Definition send (m : Message C) (g : Grip) : M' (Message C) :=
  let! _ := RLock in
  defer RUnlock
    (let! s := loadImpl g in
     send.Send range s m).

Definition EmergencyPanic (msg : Input C) (g : Grip) : M' (Message C) :=
  sendPanic (ConvertToComposer level.Emergency msg) g.

Definition EmergencyFatal (msg : Input C) (g : Grip) : M' (Message C) :=
  sendFatal (ConvertToComposer level.Emergency msg) g.

End Logger.

End logging.

(** * Properties *)

Import message.

(** ** Lazy composers: how often the wrapped function runs *)

(** Unfold the methods of the lazy composers down to their case analyses. *)
Ltac unfold_lazy :=
  repeat (cbn in *;
    unfold obind, zoom, deref, oret, call, invoke, perform,
      fieldsProducerMessage_String, fieldsProducerMessage_Raw,
      fieldsProducerMessage_Loggable, fieldsProducerMessage_Annotate,
      fieldsProducerMessage_SetPriority, fieldsProducerMessage_resolve,
      fieldsProducerMessage_Priority, fp_set_cached, fp_set_level, fp_set_fp,
      composerProducerMessage_String, composerProducerMessage_Raw,
      composerProducerMessage_Loggable, composerProducerMessage_Annotate,
      composerProducerMessage_SetPriority, composerProducerMessage_resolve,
      composerProducerMessage_Priority, cp_set_cached, cp_set_level, cp_set_cp, produced,
      errorProducerMessage_String, errorProducerMessage_Raw,
      errorProducerMessage_Loggable, errorProducerMessage_Annotate,
      errorProducerMessage_SetPriority, errorProducerMessage_resolve,
      errorProducerMessage_Priority, ep_set_cached, ep_set_level, ep_set_ep,
      concrete_Annotate, concrete_SetPriority in *).

(** Split on every case analysis of the goal and discard impossible cases. *)
Ltac split_cases := repeat case_match; simplify_eq/=; try done.

(** A call on a resolved composer leaves a counter of invocations alone. *)
Section StateMachine.

Context {T : Type} `{Composer T}.
Variable count : T -> nat.
Variable resolved : T -> Prop.

Hypothesis resolved_step : forall o m,
  resolved m -> resolved (perform o m).2 /\ count (perform o m).2 = count m.

Lemma performAll_cons (o : Op) (ops : list Op) (m : T) :
  performAll (o :: ops) m =
  match perform o m with
  | (Val _, m') => performAll ops m'
  | (Panicked msg, m') => (Panicked msg, m')
  end.
Proof. reflexivity. Qed.

Lemma resolved_count (ops : list Op) (m : T) :
  resolved m -> count (performAll ops m).2 = count m.
Proof.
  revert m. induction ops as [|o ops IH]; intros m Hm; [done|].
  rewrite performAll_cons. destruct (resolved_step o m Hm) as [Hr Hc].
  destruct (perform o m) as [[[]|msg] m']; simpl in *; [|done].
  rewrite IH; done.
Qed.

End StateMachine.

(** The state machine of a lazy composer, [pending -> settled], under a
    caller that goes on after a panic, as seen through a counter of
    invocations: a call on a settled composer leaves the counter alone, a call
    that does not resolve leaves a pending composer pending, and a call that
    resolves a pending composer counts once and settles it. *)
Section Recovering.

Context {K T : Type}.
Variable step : K -> Obj T unit.
Variable resolves : K -> bool.
Variable count : T -> nat.
Variables pending settled : T -> Prop.

Hypothesis settled_step : forall c m,
  settled m -> settled (step c m).2 /\ count (step c m).2 = count m.
Hypothesis quiet_step : forall c m,
  pending m -> resolves c = false ->
  pending (step c m).2 /\ count (step c m).2 = count m.
Hypothesis resolving_step : forall c m,
  pending m -> resolves c = true ->
  settled (step c m).2 /\ count (step c m).2 = S (count m).

Lemma settled_count (cs : list K) (m : T) :
  settled m -> count (recovering step cs m) = count m.
Proof.
  revert m. induction cs as [|c cs IH]; intros m Hm; [done|].
  destruct (settled_step c m Hm) as [Hs Hc]. cbn. unfold recovering in IH.
  by rewrite IH.
Qed.

Lemma pending_count (cs : list K) (m : T) :
  pending m ->
  count (recovering step cs m) = count m + (if existsb resolves cs then 1 else 0).
Proof.
  revert m. induction cs as [|c cs IH]; intros m Hm; [cbn; lia|].
  cbn [recovering fold_left existsb]. destruct (resolves c) eqn:Hc; cbn [orb].
  - destruct (resolving_step c m Hm Hc) as [Hs Hn].
    pose proof (settled_count cs _ Hs) as Hk. unfold recovering in Hk.
    rewrite Hk, Hn. lia.
  - destruct (quiet_step c m Hm Hc) as [Hp Hn].
    pose proof (IH _ Hp) as Hk. unfold recovering in Hk. rewrite Hk, Hn. done.
Qed.

End Recovering.

(** Unfold the calls on a lazy composer down to their case analyses. *)
Ltac unfold_calls :=
  repeat (unfold enter, enterError, errorProducerMessage_Error, errorProducerMessage_Unwrap,
            errorProducerMessage_Cause, IsStructured, fieldsProducerMessage_Structured,
            composerProducerMessage_Structured, errorProducerMessage_Structured,
            IsStructured_cached, concrete_Structured in *;
          unfold_lazy).

(** Split on what [Format] does with its verb and flag. *)
Ltac split_verb plus verb :=
  cbn [enterError resolvesError]; unfold errorProducerMessage_Format;
  destruct (Ascii.eqb verb "v"), (Ascii.eqb verb "s"), (Ascii.eqb verb "q"), plus;
  cbn [andb orb].

Section LazyInvocations.

Context {C : Type} `{Composer C, TypeSwitch C}.

(** The cached composer's own methods stay folded during case analyses. *)
#[local] Arguments sum_Composer : simpl never.
#[local] Arguments concrete_Composer : simpl never.
#[local] Arguments sum_Structured : simpl never.

Lemma fp_invocations (cs : list LazyCall) (f : FieldsProducer) (p : level.Priority) :
  neverPanics f ->
  invocations (fp_fp (recovering enter cs (NewFieldsProducerMessage p (Some f))))
  = calls f + (if existsb resolvesLazy cs then 1 else 0).
Proof.
  intros Hf.
  refine (pending_count enter resolvesLazy (fun m => invocations (fp_fp m))
            (fun m => fp_cached m = None /\ exists g, fp_fp m = Some g /\ neverPanics g)
            (fun m => fp_cached m <> None) _ _ _ cs (NewFieldsProducerMessage p (Some f)) _);
    [| | |by eauto].
  - intros c [fn [x|] lvl] Hm; [|done].
    destruct c as [[]|]; unfold_calls; split_cases.
  - intros c [fn x lvl] (Hx & g & Hg & Hr) Hc; simpl in *; subst.
    destruct c as [[]|]; unfold_calls; split_cases; eauto.
  - intros c [fn x lvl] (Hx & g & Hg & Hr) Hc; simpl in *; subst.
    destruct (Hr (calls g)) as [v Hv].
    destruct c as [[]|]; try done; unfold_calls; rewrite Hv; split_cases.
Qed.

Lemma cp_invocations (cs : list LazyCall) (f : ComposerProducer C) (p : level.Priority) :
  neverPanics f ->
  invocations (cp_cp (recovering enter cs (NewComposerProducerMessage p (Some f))))
  = calls f + (if existsb resolvesLazy cs then 1 else 0).
Proof.
  intros Hf.
  refine (pending_count enter resolvesLazy (fun m => invocations (cp_cp m))
            (fun m => cp_cached m = None /\ exists g, cp_cp m = Some g /\ neverPanics g)
            (fun m => cp_cached m <> None) _ _ _ cs (NewComposerProducerMessage p (Some f)) _);
    [| | |by eauto].
  - intros c [fn [x|] lvl] Hm; [|done].
    destruct c as [[]|]; unfold_calls; split_cases.
  - intros c [fn x lvl] (Hx & g & Hg & Hr) Hc; simpl in *; subst.
    destruct c as [[]|]; unfold_calls; split_cases; eauto.
  - intros c [fn x lvl] (Hx & g & Hg & Hr) Hc; simpl in *; subst.
    destruct (Hr (calls g)) as [v Hv].
    destruct c as [[]|]; try done; unfold_calls; rewrite Hv; split_cases.
Qed.

Lemma ep_invocations (cs : list ErrorCall) (f : ErrorProducer) (p : level.Priority) :
  neverPanics f ->
  invocations (ep_ep (recovering enterError cs (NewErrorProducerMessage p (Some f))))
  = calls f + (if existsb resolvesError cs then 1 else 0).
Proof.
  intros Hf.
  refine (pending_count enterError resolvesError (fun m => invocations (ep_ep m))
            (fun m => ep_cached m = None /\ exists g, ep_ep m = Some g /\ neverPanics g)
            (fun m => ep_cached m <> None) _ _ _ cs (NewErrorProducerMessage p (Some f)) _);
    [| | |by eauto].
  - intros c [fn [x|] lvl] Hm; [|done].
    destruct c as [[[]|]| | | |plus verb]; [..|split_verb plus verb];
      unfold_calls; split_cases.
  - intros c [fn x lvl] (Hx & g & Hg & Hr) Hc; simpl in *; subst.
    revert Hc. destruct c as [[[]|]| | | |plus verb]; [..|split_verb plus verb];
      intros Hc; unfold_calls; split_cases; eauto.
  - intros c [fn x lvl] (Hx & g & Hg & Hr) Hc; simpl in *; subst.
    destruct (Hr (calls g)) as [v Hv].
    revert Hc. destruct c as [[[]|]| | | |plus verb]; [..|split_verb plus verb];
      intros Hc; try done; unfold_calls; rewrite Hv; split_cases.
Qed.

End LazyInvocations.




(** ** Lazy composers without a function *)

(** The fields producer without a function: every method returns, nothing is
    invoked, and resolution caches an empty composer that is not loggable. *)
Lemma nil_fields_producer (p : level.Priority) (k v : string) :
  let fp := NewFieldsProducerMessage p None in
  let resolved := mkFieldsProducerMessage None (Some (NewFields p ∅)) p in
  Loggable fp = (Val false, fp)
  /\ String fp = (Val "", resolved)
  /\ Raw fp = (Val ∅, resolved)
  /\ (exists annotated, Annotate k v fp = (Val None, annotated))
  /\ concrete_Loggable (NewFields p ∅) = false.
Proof.
  repeat split; try reflexivity.
  unfold_lazy. rewrite lookup_empty. eauto.
Qed.

(** C4. Evaluation at the failing inputs: on a composer producer and on an
    error producer without a function, Loggable returns false, but String,
    Raw and Annotate call the nil function and panic, where the fields
    producer resolves to an empty composer. *)
Theorem nil_producer_resolution_panics {C : Type} `{Composer C}
  (p : level.Priority) (k v : string) :
  let cp := NewComposerProducerMessage (C:=C) p None in
  let ep := NewErrorProducerMessage p None in
  (Loggable cp = (Val false, cp) /\ Loggable ep = (Val false, ep))
  /\ (String cp = (Panicked nilDereference, cp)
      /\ Raw cp = (Panicked nilDereference, cp)
      /\ Annotate k v cp = (Panicked nilDereference, cp))
  /\ (String ep = (Panicked nilDereference, ep)
      /\ Raw ep = (Panicked nilDereference, ep)
      /\ Annotate k v ep = (Panicked nilDereference, ep)).
Proof. repeat split. Qed.

(** ** Priorities of lazy composers *)

#[global] Instance concrete_Lawful : LawfulPriority concreteMessage.
Proof.
  split; intros p m Hp; cbn; unfold concrete_SetPriority; rewrite Hp; done.
Qed.

#[global] Instance fieldsProducerMessage_Lawful : LawfulPriority fieldsProducerMessage.
Proof.
  split; intros p [fn c lvl] Hp; cbn; unfold fieldsProducerMessage_SetPriority;
    rewrite Hp; cbn; [|done]. destruct c; cbn; [|done]. by case_match.
Qed.

#[global] Instance composerProducerMessage_Lawful {C : Type} `{Composer C} :
  LawfulPriority (composerProducerMessage C).
Proof.
  split; intros p [fn c lvl] Hp; cbn; unfold composerProducerMessage_SetPriority;
    rewrite Hp; cbn; [|done]. destruct c; cbn; [|done]. by case_match.
Qed.

#[global] Instance errorProducerMessage_Lawful : LawfulPriority errorProducerMessage.
Proof.
  split; intros p [fn c lvl] Hp; cbn; unfold errorProducerMessage_SetPriority;
    rewrite Hp; cbn; [|done]. destruct c; cbn; [|done]. by case_match.
Qed.




(** ** Conversion of a composer *)

(** C3. Evaluation at the failing input. A composer whose priority is Info,
    a valid level, converted with [ConvertToComposerWithLevel] at Error: the
    guard [overRideLevel || message.Priority() != level.Invalid] holds, so
    the priority becomes Error and is not preserved. A composer whose
    priority is Invalid, converted the same way, fails the guard and stays
    Invalid, where the plain [ConvertToComposer] sets Error. *)
Theorem with_level_conversion_at_set_priority :
  let m := NewFieldsProducerMessage level.Info None in
  let unset := MakeFieldsProducerMessage None in
  (level.IsValid (Priority m) = true
   /\ ConvertToComposerWithLevel level.Error (InComposer m)
      = OfComposer (NewFieldsProducerMessage level.Error None)
   /\ Priority (ConvertToComposerWithLevel level.Error (InComposer m)) = level.Error
   /\ Priority (ConvertToComposerWithLevel level.Error (InComposer m)) <> Priority m)
  /\ (Priority unset = level.Invalid
      /\ ConvertToComposerWithLevel level.Error (InComposer unset) = OfComposer unset
      /\ Priority (ConvertToComposerWithLevel level.Error (InComposer unset)) = level.Invalid
      /\ Priority (ConvertToComposer level.Error (InComposer unset)) = level.Error).
Proof. repeat split. done. Qed.

(** ** The level policy *)

Import send.

(** C1. For a message that reports loggable, [ShouldLog] returns false when
    the effective priority (the message's, or the sender's Default when the
    message's is Invalid) is below the Threshold, which Emergency never is,
    and returns true when the effective priority is Emergency, whatever the
    Threshold; for a message that reports not loggable it returns false. *)
Theorem ShouldLog_threshold {T : Type} `{Composer T}
  (l : LevelInfo) (m m' : T) (loggable : bool) :
  Loggable m = (Val loggable, m') ->
  (loggable = true -> level.below (effectivePriority l m) (Threshold l) = true ->
     effectivePriority l m <> level.Emergency /\ ShouldLog l m = (Val false, m'))
  /\ (loggable = true -> effectivePriority l m = level.Emergency ->
     ShouldLog l m = (Val true, m'))
  /\ (loggable = false -> ShouldLog l m = (Val false, m')).
Proof.
  intros Hl. unfold ShouldLog, obind, oret. rewrite Hl.
  split; [|split].
  - intros -> Hb.
    assert (effectivePriority l m <> level.Emergency) as He.
    { intros He. rewrite He in Hb. destruct (Threshold l); discriminate. }
    split; [done|]. cbn. rewrite decide_False by done. by rewrite Hb.
  - intros -> He. cbn. by rewrite decide_True.
  - by intros ->.
Qed.

(** C1, witness: a Debug message and an Emergency message against the
    threshold Info, and an empty message. *)
Lemma ShouldLog_threshold_witness :
  let l := mkLevelInfo level.Info level.Info in
  ShouldLog l (NewDefaultMessage level.Debug "x") = (Val false, NewDefaultMessage level.Debug "x")
  /\ ShouldLog l (NewDefaultMessage level.Emergency "x")
     = (Val true, NewDefaultMessage level.Emergency "x")
  /\ ShouldLog l (NewDefaultMessage level.Emergency "")
     = (Val false, NewDefaultMessage level.Emergency "").
Proof.
  pose (l := mkLevelInfo level.Info level.Info).
  pose (ShouldLog_threshold l (NewDefaultMessage level.Debug "x")
          (NewDefaultMessage level.Debug "x") true eq_refl) as H1.
  pose (ShouldLog_threshold l (NewDefaultMessage level.Emergency "x")
          (NewDefaultMessage level.Emergency "x") true eq_refl) as H2.
  pose (ShouldLog_threshold l (NewDefaultMessage level.Emergency "")
          (NewDefaultMessage level.Emergency "") false eq_refl) as H3.
  split; [|split].
  - exact (proj2 (proj1 H1 eq_refl eq_refl)).
  - exact (proj1 (proj2 H2) eq_refl eq_refl).
  - exact (proj2 (proj2 H3) eq_refl).
Defined.

(** ** The logger: swapping the sender *)

Import logging.

(** Unfold the calls of the logger and of the senders' promoted methods. *)
Ltac unfold_logger :=
  unfold SetSender, logging.Name, logging.SetName, logging.SetLevel, GetSender,
    defer, bind, Lock, Unlock, RLock, RUnlock, loadImpl, storeImpl, emit, ret,
    send.Level, send.SetLevel, send.Close, send.Name, send.SetName; cbn.

(** Reading the store after a write. *)
Ltac store_lookup s l :=
  unfold withLevel, withName; cbv zeta;
  destruct (decide (embedded s = l)) as [<-|?];
  [rewrite fn_lookup_insert|rewrite fn_lookup_insert_ne by done]; done.

Lemma name_withName (s : Sender) (n : string) (σ : Store) :
  name (withName s n σ (embedded s)) = n.
Proof. unfold withName. cbv zeta. by rewrite fn_lookup_insert. Qed.

Lemma levelInfo_withName (s : Sender) (n : string) (σ : Store) (l : loc) :
  levelInfo (withName s n σ l) = levelInfo (σ l).
Proof. store_lookup s l. Qed.

Lemma levelInfo_withLevel (s : Sender) (lv : LevelInfo) (σ : Store) :
  levelInfo (withLevel s lv σ (embedded s)) = lv.
Proof. unfold withLevel. cbv zeta. by rewrite fn_lookup_insert. Qed.

Lemma name_withLevel (s : Sender) (lv : LevelInfo) (σ : Store) (l : loc) :
  name (withLevel s lv σ l) = name (σ l).
Proof. store_lookup s l. Qed.

Lemma closeResult_withLevel (s : Sender) (lv : LevelInfo) (σ : Store) (l : loc) :
  closeResult (withLevel s lv σ l) = closeResult (σ l).
Proof. store_lookup s l. Qed.

Section SetSender.

Context {C : Type} `{Composer C}.

(** The three ways through [SetSender] for a sender that is not nil: the
    level is rejected, [Close] fails, or the swap is made. *)
Lemma SetSender_eval (new : Sender) (g : Grip) (σ : Store) :
  let old := impl g in
  let l := levelInfo (σ (embedded old)) in
  let σ1 := withLevel new l σ in
  SetSender (C:=C) (Some new) g σ =
  if Valid l then
    match closeResult (σ1 (embedded old)) with
    | Some e =>
        (Returned (Some e, g), σ1,
         [EvLock; EvLoadImpl; EvLoadImpl; EvClose (embedded old); EvUnlock])
    | None =>
        (Returned (None, mkGrip new (defaultLevel g)),
         withName new (name (σ1 (embedded old))) σ1,
         [EvLock; EvLoadImpl; EvLoadImpl; EvClose (embedded old); EvLoadImpl; EvStoreImpl;
          EvUnlock])
    end
  else (Returned (Some "level settings are not valid", g), σ, [EvLock; EvLoadImpl; EvUnlock]).
Proof.
  unfold_logger.
  destruct (Valid _); cbn; [|done].
  destruct (closeResult _); done.
Qed.

(** [SetSender] always returns. *)
Lemma SetSender_returns (s : option Sender) (g : Grip) (σ : Store) :
  exists e g', resultOf (SetSender (C:=C) s g σ) = Returned (e, g').
Proof.
  destruct s as [s|]; [|by eexists _, _].
  rewrite SetSender_eval. cbn. repeat case_match; by eexists _, _.
Qed.

(** C5. When [SetSender(new)] returns nil, the name and the LevelInfo of
    [new] are those the previous sender had before the call, [Close] of the
    previous sender has been called exactly once and of no other sender, and
    the logger's sender is [new]. *)
Theorem SetSender_swaps (new : Sender) (g g' : Grip) (σ σ' : Store)
  (evs : list (Event (Message C))) :
  SetSender (Some new) g σ = (Returned (None, g'), σ', evs) ->
  let old := impl g in
  name (σ' (embedded new)) = name (σ (embedded old))
  /\ levelInfo (σ' (embedded new)) = levelInfo (σ (embedded old))
  /\ resultOf (send.Name (T:=Message C) new σ') = Returned (name (σ (embedded old)))
  /\ resultOf (send.Level (T:=Message C) new σ') = Returned (levelInfo (σ (embedded old)))
  /\ closeCalls (embedded old) evs = 1
  /\ (forall l, l <> embedded old -> closeCalls l evs = 0)
  /\ impl g' = new.
Proof.
  rewrite SetSender_eval. cbn.
  destruct (Valid _) eqn:Hv; [|done].
  destruct (closeResult _) eqn:Hc; [done|].
  intros [= <- <- <-]. unfold send.Name, send.Level, resultOf. cbn.
  rewrite name_withName, levelInfo_withName, levelInfo_withLevel, name_withLevel.
  repeat split.
  - unfold closeCalls. cbn. by rewrite bool_decide_eq_true_2.
  - intros l Hl. unfold closeCalls. cbn. by rewrite bool_decide_eq_false_2.
Qed.

(** The swap is made when the previous sender's LevelInfo is valid and its
    [Close] succeeds. *)
Lemma SetSender_succeeds (new : Sender) (g : Grip) (σ : Store) :
  Valid (levelInfo (σ (embedded (impl g)))) = true ->
  closeResult (σ (embedded (impl g))) = None ->
  exists g' σ' evs, SetSender (C:=C) (Some new) g σ = (Returned (None, g'), σ', evs).
Proof.
  intros Hv Hc. rewrite SetSender_eval. cbn.
  rewrite Hv, closeResult_withLevel, Hc. by eexists _, _, _.
Qed.

(** C6. A call of [SetSender] that returns an error leaves the logger as it
    was, and the field [impl] is not written; [SetSender(nil)] returns an
    error and does nothing else. *)
Theorem SetSender_error_keeps_sender (s : option Sender) (g g' : Grip) (σ σ' : Store)
  (evs : list (Event (Message C))) (e : string) :
  SetSender s g σ = (Returned (Some e, g'), σ', evs) ->
  (g' = g /\ impl g' = impl g /\ ~ In EvStoreImpl evs)
  /\ SetSender (C:=C) None g σ = (Returned (Some "cannot set the sender to nil", g), σ, []).
Proof.
  intros Hs. split; [|done].
  destruct s as [new|].
  - rewrite SetSender_eval in Hs. cbn in Hs.
    destruct (Valid _); [destruct (closeResult _)|]; inversion Hs; subst;
      (split; [done|split; [done|]]); cbn; intuition discriminate.
  - cbn in Hs. unfold ret in Hs. inversion Hs; subst. repeat split. cbn. tauto.
Qed.

End SetSender.

(** C5, witness: the logger on the sender at 0 takes the sender at 1. *)
Lemma SetSender_swaps_witness :
  let σ : Store := fun l =>
    mkBase (if decide (l = 0) then "old" else "new")
      (mkLevelInfo level.Info (if decide (l = 0) then level.Notice else level.Debug))
      None (fun _ => None) in
  let g := MakeGrip (backend 0) in
  let σ1 := withName (backend 1) "old" (withLevel (backend 1) (levelInfo (σ 0)) σ) in
  name (σ1 1) = "old" /\ levelInfo (σ1 1) = mkLevelInfo level.Info level.Notice.
Proof.
  intros σ g σ1.
  pose proof (SetSender_swaps (C:=concreteMessage) (backend 1) g
                (mkGrip (backend 1) level.Info) σ σ1
                [EvLock; EvLoadImpl; EvLoadImpl; EvClose 0; EvLoadImpl; EvStoreImpl; EvUnlock]
                eq_refl) as (Hn & Hl & _).
  split; [exact Hn|exact Hl].
Defined.

(** C6, witness: [SetSender(nil)]. *)
Lemma SetSender_error_keeps_sender_witness :
  let σ : Store := fun _ => mkBase "grip" (mkLevelInfo level.Info level.Info) None (fun _ => None) in
  let g := MakeGrip (backend 0) in
  SetSender (C:=concreteMessage) None g σ
  = (Returned (Some "cannot set the sender to nil", g), σ, []).
Proof.
  intros σ g.
  exact (proj2 (SetSender_error_keeps_sender (C:=concreteMessage) None g g σ σ []
                  "cannot set the sender to nil" eq_refl)).
Defined.

(** ** Senders *)

Section Sending.

Context {T : Type} `{Composer T}.
Variable range : gmap string string -> list (string * string).

(** The loop over the annotations calls [Annotate] once for each, in order,
    and leaves the store alone. *)
Lemma annotateAll_events (kvs : list (string * string)) (m m' : T) (σ σ' : Store)
  (errs : list string) (evs : list (Event T)) :
  annotateAll kvs m σ = (Returned (errs, m'), σ', evs) ->
  σ' = σ /\ evs = annotation <$> kvs.
Proof.
  revert m m' σ' errs evs. induction kvs as [|[k v] kvs IH]; intros m m' σ' errs evs.
  - cbn. unfold ret. by intros [= <- <- <- <-].
  - cbn. unfold bind, emit, onMessage, ret.
    destruct (Annotate k v m) as [[err|msg] m1]; [|done].
    destruct (annotateAll kvs m1 σ) as [[[[errs1 m2]|how] σ1] evs1] eqn:Ha; [|done].
    apply IH in Ha as [-> ->]. intros [= _ _ <- <-].
    split; [done|]. cbn. by rewrite app_nil_r.
Qed.

(** The loop returns the failures of its calls of [Annotate], in the order
    of the calls, and the composer as the calls have left it. *)
Lemma annotateAll_spec (kvs : list (string * string)) (m : T) (σ : Store) :
  annotationsReturn kvs m = true ->
  annotateAll kvs m σ
  = (Returned (failuresOf kvs m, annotatedBy kvs m), σ, annotation <$> kvs).
Proof.
  revert m. induction kvs as [|[k v] kvs IH]; intros m Hr; [done|].
  cbn in Hr |- *. unfold bind, emit, onMessage, ret.
  destruct (Annotate k v m) as [[err|msg] m1] eqn:Ha; [|done].
  unfold annotatedBy in IH. rewrite (IH _ Hr). cbn. destruct err; by rewrite ?app_nil_r.
Qed.

Lemma failuresOf_positions (kvs : list (string * string)) (m : T) :
  failuresOf kvs m = omap id (imap (failureAt kvs m) kvs).
Proof.
  revert m. induction kvs as [|[k v] kvs IH]; intros m; [done|].
  rewrite imap_cons. cbn [failuresOf omap fst snd].
  assert (imap (failureAt ((k, v) :: kvs) m ∘ S) kvs
          = imap (failureAt kvs (Annotate k v m).2) kvs) as ->.
  { apply imap_ext. intros i kv _. reflexivity. }
  unfold failureAt at 1. cbn [take annotatedBy fold_left fst snd id].
  destruct (Annotate k v m) as [[[e|]|msg] m1]; cbn [fst snd option_bind mbind id];
    by rewrite IH.
Qed.


End Sending.


(** ** The logger: locking and escalation *)

Lemma lockEvents_app {T : Type} (a b : list (Event T)) :
  lockEvents (a ++ b) = lockEvents a ++ lockEvents b.
Proof. apply List.filter_app. Qed.

Section Quiet.

Context {T : Type} `{Composer T}.
Variable range : gmap string string -> list (string * string).

(** The senders know nothing of the logger's lock, and they never exit. *)
Lemma annotateAll_quiet (kvs : list (string * string)) (m : T) (σ σ' : Store)
  (r : result (list string * T)) (evs : list (Event T)) :
  annotateAll kvs m σ = (r, σ', evs) ->
  lockEvents evs = [] /\ forall code, r <> Aborted (Exit code).
Proof.
  revert m r σ' evs. induction kvs as [|[k v] kvs IH]; intros m r σ' evs.
  - cbn. unfold ret. by intros [= <- <- <-].
  - cbn. unfold bind, emit, onMessage, ret.
    destruct (Annotate k v m) as [[err|msg] m1]; [|by intros [= <- <- <-]].
    destruct (annotateAll kvs m1 σ) as [[[[errs1 m2]|how] σ1] evs1] eqn:Ha;
      apply IH in Ha as [He Hr]; intros [= <- <- <-]; cbn;
      rewrite ?app_nil_r; done.
Qed.

Lemma Send_quiet (s : Sender) (m : T) (σ σ' : Store) (r : result T) (evs : list (Event T)) :
  send.Send range s m σ = (r, σ', evs) ->
  lockEvents evs = [] /\ forall code, r <> Aborted (Exit code).
Proof.
  revert m r σ' evs.
  induction s as [l|inner IH annotations|inner IH filter]; intros m r σ' evs.
  - cbn. unfold bind, emit, onMessage, ret, send.Level, ErrorHandler. cbn.
    destruct (ShouldLog _ m) as [[[]|msg] m1]; try by intros [= <- <- <-].
    destruct (String m1) as [[text|msg] m2]; try by intros [= <- <- <-].
    cbn. destruct (transmit (σ l) text); by intros [= <- <- <-].
  - cbn [send.Send]. unfold bind at 1. unfold send.Level at 1.
    unfold bind at 1. unfold onMessage at 1.
    destruct (ShouldLog _ m) as [[[]|msg] m1]; try by intros [= <- <- <-].
    cbn [negb]. unfold bind at 1.
    destruct (annotateAll _ m1 σ) as [[[[errs m2]|how] σ1] evsA] eqn:Ha;
      apply annotateAll_quiet in Ha as Hq; destruct Hq as [Ha1 Ha2];
      [|cbn; intros [= <- <- <-]; split; [apply Ha1|];
        intros code [= ->]; by apply (Ha2 code)].
    apply annotateAll_events in Ha as [-> _].
    unfold bind at 1.
    destruct (send.Send range inner m2 σ) as [[r2 σ2] evs2] eqn:Hs.
    pose proof (IH _ _ _ _ Hs) as [Hi1 Hi2].
    destruct (Nat.ltb 0 (length errs)); unfold ErrorHandler, emit, ret; rewrite Hs;
      intros [= <- <- <-]; cbn; rewrite ?lockEvents_app, ?Hi1, ?Ha1; done.
  - cbn [send.Send]. unfold bind, emit.
    destruct (send.Send range inner m σ) as [[r2 σ2] evs2] eqn:Hs.
    apply IH in Hs as [Hi1 Hi2]. by intros [= <- <- <-].
Qed.

End Quiet.

Section Locking.

Context {C : Type} `{Composer C}.
Variable range : gmap string string -> list (string * string).

(** A body run under [RLock] with a deferred [RUnlock]: when the body takes
    no lock itself and does not exit, the lock events are those of the pair
    around those of the body. *)
Lemma read_locked {A : Type} (body : M (Message C) A) (σ σ' : Store) (r : result A)
  (evs : list (Event (Message C))) :
  body σ = (r, σ', evs) ->
  (forall code, r <> Aborted (Exit code)) ->
  lockEvents (eventsOf ((let! _ := RLock in defer RUnlock body) σ))
  = EvRLock :: lockEvents evs ++ [EvRUnlock].
Proof.
  intros Hb Hr. unfold bind, defer, RLock, RUnlock, emit, eventsOf. rewrite Hb.
  destruct r as [a|[v|code]].
  - unfold lockEvents. cbn. by rewrite List.filter_app.
  - unfold lockEvents. cbn. by rewrite List.filter_app.
  - by destruct (Hr code).
Qed.

(** C9, as amended. [Name], [SetName], [SetLevel], [Send] and [GetSender]
    take the read side of the lock around their reads of the field [impl]
    and never write it; [SetSender] with a sender takes the exclusive side
    around its reads and its one write of the field, and [SetSender(nil)]
    returns without taking the lock. *)
Theorem lock_discipline (g : Grip) (σ : Store) (n : string) (info : LevelInfo)
  (msg : Input C) (s : Sender) :
  lockEvents (eventsOf (logging.Name (C:=C) g σ)) = [EvRLock; EvLoadImpl; EvRUnlock]
  /\ lockEvents (eventsOf (logging.SetName (C:=C) n g σ)) = [EvRLock; EvLoadImpl; EvRUnlock]
  /\ lockEvents (eventsOf (logging.SetLevel (C:=C) info g σ))
     = [EvRLock; EvLoadImpl; EvLoadImpl; EvRUnlock]
  /\ lockEvents (eventsOf (logging.Send range msg g σ)) = [EvRLock; EvLoadImpl; EvRUnlock]
  /\ lockEvents (eventsOf (GetSender (C:=C) g σ)) = [EvRLock; EvLoadImpl; EvRUnlock]
  /\ (exists loads,
        lockEvents (eventsOf (SetSender (C:=C) (Some s) g σ))
        = [EvLock] ++ loads ++ [EvUnlock]
        /\ (loads = [EvLoadImpl] \/ loads = [EvLoadImpl; EvLoadImpl]
            \/ loads = [EvLoadImpl; EvLoadImpl; EvLoadImpl; EvStoreImpl]))
  /\ eventsOf (SetSender (C:=C) None g σ) = [].
Proof.
  split; [done|]. split; [done|]. split.
  { unfold_logger. by destruct (Valid _). }
  split.
  { unfold logging.Send.
    destruct (send.Send range (impl g) (ConvertToComposer (defaultLevel g) msg) σ)
      as [[r σ'] evs] eqn:Hs.
    apply Send_quiet in Hs as Hq. destruct Hq as [Hq1 Hq2].
    rewrite (read_locked _ σ σ' r (EvLoadImpl :: evs)).
    - unfold lockEvents in *. cbn. by rewrite Hq1.
    - unfold bind, loadImpl, emit, ret. cbn. by rewrite Hs.
    - done. }
  split; [done|]. split; [|done].
  rewrite SetSender_eval. cbn.
  destruct (Valid _); [destruct (closeResult _)|]; cbn.
  - exists [EvLoadImpl; EvLoadImpl]. auto.
  - exists [EvLoadImpl; EvLoadImpl; EvLoadImpl; EvStoreImpl]. auto.
  - exists [EvLoadImpl]. auto.
Qed.

(** C9, counterexample: [SetName] and [SetLevel] take the read side of the
    lock, not the exclusive side. *)
Lemma SetName_takes_read_lock :
  let σ : Store := fun _ => mkBase "grip" (mkLevelInfo level.Info level.Info) None (fun _ => None) in
  let g := MakeGrip (backend 0) in
  eventsOf (logging.SetName (C:=concreteMessage) "name" g σ) = [EvRLock; EvLoadImpl; EvRUnlock]
  /\ ~ In EvLock (eventsOf (logging.SetName (C:=concreteMessage) "name" g σ))
  /\ eventsOf (logging.SetLevel (C:=concreteMessage) (mkLevelInfo level.Debug level.Debug) g σ)
     = [EvRLock; EvLoadImpl; EvLoadImpl; EvRUnlock]
  /\ ~ In EvLock (eventsOf (logging.SetLevel (C:=concreteMessage)
                              (mkLevelInfo level.Debug level.Debug) g σ)).
Proof.
  intros σ g. split; [reflexivity|].
  split; [intros Hin; vm_compute in Hin; intuition discriminate|].
  split; [reflexivity|]. intros Hin. vm_compute in Hin. intuition discriminate.
Qed.

(** C7. For a message that [EmergencyPanic] or [EmergencyFatal] converts:
    when [ShouldLog] of the sender's level accepts it, the sender's [Send]
    runs to its end with the message, and the panic, with the message's
    text, or the exit follows it: the events of [Send] come before the event
    of the abort, and the store is as [Send] left it. When [ShouldLog]
    rejects it, the call returns, nothing is sent and nothing aborts. *)
Theorem emergency_sends_before_abort (msg : Input C) (g : Grip) (σ : Store)
  (ok : bool) (m1 : Message C) :
  let m := ConvertToComposer level.Emergency msg in
  ShouldLog (levelInfo (σ (embedded (impl g)))) m = (Val ok, m1) ->
  (ok = true ->
     forall (m2 : Message C) (σ2 : Store) (evs : list (Event (Message C))),
       send.Send range (impl g) m1 σ = (Returned m2, σ2, evs) ->
       EmergencyFatal range msg g σ
       = (Aborted (Exit 1), σ2, [EvRLock; EvLoadImpl; EvLoadImpl] ++ evs ++ [EvExit 1])
       /\ forall (text : string) (m3 : Message C),
            String m2 = (Val text, m3) ->
            EmergencyPanic range msg g σ
            = (Aborted (Panic text), σ2,
               [EvRLock; EvLoadImpl; EvLoadImpl] ++ evs ++ [EvPanic text; EvRUnlock]))
  /\ (ok = false ->
     EmergencyPanic range msg g σ = (Returned m1, σ, [EvRLock; EvLoadImpl; EvRUnlock])
     /\ EmergencyFatal range msg g σ = (Returned m1, σ, [EvRLock; EvLoadImpl; EvRUnlock])).
Proof.
  intros m Hok. subst m.
  unfold EmergencyPanic, EmergencyFatal, sendPanic, sendFatal.
  unfold bind, defer, RLock, RUnlock, loadImpl, emit, ret, send.Level, onMessage,
    panic, osExit.
  cbn -[ShouldLog send.Send String ConvertToComposer]. rewrite Hok.
  split; intros ->; cbn -[ShouldLog send.Send String ConvertToComposer]; [|done].
  intros m2 σ2 evs Hsend. rewrite Hsend.
  cbn -[ShouldLog send.Send String ConvertToComposer].
  split; [by rewrite ?app_nil_r|].
  intros text m3 Htext. rewrite Htext. cbn. by rewrite ?app_nil_r, <- ?app_assoc.
Qed.

End Locking.

(** C7, witness: [EmergencyPanic("boom")] on a logger whose sender is the
    backend at 0: the message is sent and transmitted, then the panic; and
    [EmergencyPanic("")], whose message is not loggable, returns. *)
Lemma emergency_sends_before_abort_witness :
  let σ : Store := fun _ => mkBase "grip" (mkLevelInfo level.Info level.Info) None (fun _ => None) in
  let g := MakeGrip (backend 0) in
  let m := OfConcrete (C:=concreteMessage) (NewDefaultMessage level.Emergency "boom") in
  let empty := OfConcrete (C:=concreteMessage) (NewDefaultMessage level.Emergency "") in
  EmergencyPanic map_to_list (InString "boom") g σ
  = (Aborted (Panic "boom"), σ,
     [EvRLock; EvLoadImpl; EvLoadImpl; EvSend 0 m; EvTransmit 0 "boom"; EvPanic "boom";
      EvRUnlock])
  /\ EmergencyPanic map_to_list (InString "") g σ
     = (Returned empty, σ, [EvRLock; EvLoadImpl; EvRUnlock]).
Proof.
  intros σ g m empty. split.
  - exact (proj2 (proj1 (emergency_sends_before_abort (C:=concreteMessage) map_to_list
             (InString "boom") g σ true m eq_refl) eq_refl
             m σ [EvSend 0 m; EvTransmit 0 "boom"] eq_refl) "boom" m eq_refl).
  - exact (proj1 (proj2 (emergency_sends_before_abort (C:=concreteMessage) map_to_list
             (InString "") g σ false empty eq_refl) eq_refl)).
Defined.

(** * Further properties *)

(** ** Lazy composers: priorities and caching *)

(** A property that every call keeps holds after every sequence of calls. *)
Lemma performAll_invariant {T : Type} `{Composer T} (I : T -> Prop) :
  (forall o m, I m -> I (perform o m).2) ->
  forall ops m, I m -> I (performAll ops m).2.
Proof.
  intros Hstep ops. induction ops as [|o ops IH]; intros m Hm; [done|].
  rewrite performAll_cons. specialize (Hstep o m Hm).
  destruct (perform o m) as [[[]|msg] m']; cbn in *; [by apply IH|done].
Qed.

Section LazyPriorities.

Context {C : Type} `{Composer C}.

#[local] Arguments sum_Composer : simpl never.

(** X1. In every state that a fields producer or an error producer reaches,
    by whatever calls, a cached composer holds the priority of its wrapper. *)
Theorem cached_priority_follows_wrapper (ops : list Op) (p : level.Priority)
  (ff : option FieldsProducer) (ef : option ErrorProducer) :
  let fp := (performAll ops (NewFieldsProducerMessage p ff)).2 in
  let ep := (performAll ops (NewErrorProducerMessage p ef)).2 in
  match fp_cached fp with
  | Some c => Priority c = Priority fp
  | None => True
  end
  /\ match ep_cached ep with
     | Some c => Priority c = Priority ep
     | None => True
     end.
Proof.
  split.
  - apply (performAll_invariant
             (fun m : fieldsProducerMessage =>
                match fp_cached m with Some c => Priority c = Priority m | None => True end));
      [|done].
    intros o [fn [c|] lvl] Hm; destruct o; unfold_lazy; split_cases.
  - apply (performAll_invariant
             (fun m : errorProducerMessage =>
                match ep_cached m with Some c => Priority c = Priority m | None => True end));
      [|done].
    intros o [fn [c|] lvl] Hm; destruct o; unfold_lazy; split_cases.
Qed.

(** The priority after a sequence of calls that runs to its end, from what
    each call does to it. *)
Lemma lastPriority_steps {T : Type} `{Composer T} :
  (forall o (m : T), Priority (perform o m).2 = lastPriority (Priority m) [o]) ->
  forall ops (m : T),
    (performAll ops m).1 = Val tt ->
    Priority (performAll ops m).2 = lastPriority (Priority m) ops.
Proof.
  intros Hstep ops. induction ops as [|o ops IH]; intros m Hm; [done|].
  rewrite performAll_cons in *. specialize (Hstep o m).
  destruct (perform o m) as [[[]|msg] m']; cbn in *; [|done].
  rewrite IH by done. by rewrite Hstep.
Qed.

(** X2. The priority of a lazy composer after a sequence of calls that runs
    to its end is the last valid priority that [SetPriority] was given, or the
    priority it had: resolution and the other calls never change it, and an
    invalid priority is never stored. *)
Theorem lazy_priority_is_last_set (ops : list Op) (fp : fieldsProducerMessage)
  (cp : composerProducerMessage C) (ep : errorProducerMessage) :
  ((performAll ops fp).1 = Val tt ->
   Priority (performAll ops fp).2 = lastPriority (Priority fp) ops)
  /\ ((performAll ops cp).1 = Val tt ->
      Priority (performAll ops cp).2 = lastPriority (Priority cp) ops)
  /\ ((performAll ops ep).1 = Val tt ->
      Priority (performAll ops ep).2 = lastPriority (Priority ep) ops).
Proof.
  split; [|split]; apply lastPriority_steps.
  - intros o [fn c lvl]. destruct o; unfold_lazy; split_cases.
  - intros o [fn c lvl]. destruct o; unfold_lazy; split_cases.
  - intros o [fn c lvl]. destruct o; unfold_lazy; split_cases.
Qed.

End LazyPriorities.

(** X2, witness: a priority is set before resolution, an invalid one after
    it. *)
Lemma lazy_priority_is_last_set_witness :
  let ops := [CallSetPriority level.Error; CallString; CallSetPriority level.Invalid] in
  Priority (performAll ops (NewFieldsProducerMessage level.Info None)).2 = level.Error.
Proof.
  intros ops.
  exact (proj1 (lazy_priority_is_last_set (C:=concreteMessage) ops
                  (NewFieldsProducerMessage level.Info None)
                  (NewComposerProducerMessage level.Info None)
                  (NewErrorProducerMessage level.Info None)) eq_refl).
Defined.

(** X3. What the first rendering of a fields producer or of an error
    producer returned is cached: a later [String] returns the same text, and
    [String], [Raw] and [Loggable] return without changing the composer, so
    the wrapped function is not consulted again. *)
Theorem resolved_accessors_are_cached (fp fp1 : fieldsProducerMessage)
  (ep ep1 : errorProducerMessage) (s t : string) :
  (String fp = (Val s, fp1) ->
   String fp1 = (Val s, fp1)
   /\ (exists r, Raw fp1 = (Val r, fp1))
   /\ (exists b, Loggable fp1 = (Val b, fp1)))
  /\ (String ep = (Val t, ep1) ->
      String ep1 = (Val t, ep1)
      /\ (exists r, Raw ep1 = (Val r, ep1))
      /\ (exists b, Loggable ep1 = (Val b, ep1))).
Proof.
  split.
  - destruct fp as [fn [c|] lvl]; intros Hs; unfold_lazy; split_cases; eauto.
  - destruct ep as [fn [c|] lvl]; intros Hs; unfold_lazy; split_cases; eauto.
Qed.

(** X3, witness: a function whose result would differ at its second call. *)
Lemma resolved_accessors_are_cached_witness :
  let f : FieldsProducer :=
    mkFunc 0 (fun n => Val (if decide (n = 0) then {["call" := "first"]}
                            else {["call" := "later"]})) in
  let fp := NewFieldsProducerMessage level.Info (Some f) in
  String (String fp).2 = (Val "call='first'", (String fp).2).
Proof.
  intros f fp.
  exact (proj1 (proj1 (resolved_accessors_are_cached fp (String fp).2
                  (NewErrorProducerMessage level.Info None)
                  (NewErrorProducerMessage level.Info None) "call='first'" "") eq_refl)).
Defined.

(** ** Errors and structure of lazy composers *)

(** X4. [Cause] of an error producer returns the error that the wrapped
    function returned, nil included, and invokes the function once; a second
    [Cause] returns the same error without invoking it; [Error] is [String].
    Without a function [Cause] panics. *)
Theorem Cause_is_produced_error (p : level.Priority) (f : ErrorProducer) (err : error) :
  body f (calls f) = Val err ->
  let ep := NewErrorProducerMessage p (Some f) in
  let resolved := (errorProducerMessage_Cause ep).2 in
  errorProducerMessage_Cause ep = (Val err, resolved)
  /\ invocations (ep_ep resolved) = S (calls f)
  /\ errorProducerMessage_Cause resolved = (Val err, resolved)
  /\ errorProducerMessage_Unwrap ep = errorProducerMessage_Cause ep
  /\ errorProducerMessage_Error ep = String ep
  /\ (errorProducerMessage_Cause (NewErrorProducerMessage p None)).1
     = Panicked nilDereference.
Proof.
  intros Hf ep resolved. subst ep resolved.
  unfold errorProducerMessage_Unwrap, errorProducerMessage_Error, errorProducerMessage_Cause.
  unfold_lazy. rewrite Hf. cbn. done.
Qed.

(** X4, witness: a function that returns an error, and one that returns nil. *)
Lemma Cause_is_produced_error_witness :
  (errorProducerMessage_Cause
     (NewErrorProducerMessage level.Error (Some (mkFunc 0 (fun _ => Val (Some "disk full")))))).1
  = Val (Some "disk full")
  /\ (errorProducerMessage_Cause
        (NewErrorProducerMessage level.Error (Some (mkFunc 0 (fun _ => Val None))))).1
     = Val None.
Proof.
  split.
  - exact (f_equal fst (proj1 (Cause_is_produced_error level.Error
             (mkFunc 0 (fun _ => Val (Some "disk full"))) (Some "disk full") eq_refl))).
  - exact (f_equal fst (proj1 (Cause_is_produced_error level.Error
             (mkFunc 0 (fun _ => Val None)) None eq_refl))).
Defined.

(** X5. A nil [func() map[string]interface{}] is wrapped in a closure before
    the lazy composer is made, so the composer's nil check does not see it:
    where the composer of a nil [func() Fields] reports not loggable and
    renders empty, the composer of the nil map function panics in
    [Loggable], [String], [Raw] and [Annotate]. *)
Theorem nil_map_producer_panics {C : Type} `{Composer C}
  (p : level.Priority) (overRideLevel : bool) (k v : string) :
  let plain := convert (C:=C) p (InFuncFields None) overRideLevel in
  let converted := convert (C:=C) p (InFuncMap None) overRideLevel in
  ((Loggable plain).1 = Val false /\ (String plain).1 = Val "")
  /\ ((Loggable converted).1 = Panicked nilDereference
      /\ (String converted).1 = Panicked nilDereference
      /\ (Raw converted).1 = Panicked nilDereference
      /\ (Annotate k v converted).1 = Panicked nilDereference)
  /\ (Loggable (MakeConvertedFieldsProducer None)).1 = Panicked nilDereference.
Proof. repeat split. Qed.

Section IsStructured.

Context {C : Type} `{Composer C, TypeSwitch C}.

#[local] Arguments sum_Composer : simpl never.
#[local] Arguments concrete_Composer : simpl never.

(** On a resolved composer no sequence of calls invokes the function. *)
Lemma fp_resolved_invocations (ops : list Op) (m : fieldsProducerMessage) :
  fp_cached m <> None ->
  invocations (fp_fp (performAll ops m).2) = invocations (fp_fp m).
Proof.
  apply (resolved_count (fun m => invocations (fp_fp m)) (fun m => fp_cached m <> None)).
  intros o [fn [c|] lvl] Hm; [|done]. destruct o; unfold_lazy; split_cases.
Qed.

Lemma ep_resolved_invocations (ops : list Op) (m : errorProducerMessage) :
  ep_cached m <> None ->
  invocations (ep_ep (performAll ops m).2) = invocations (ep_ep m).
Proof.
  apply (resolved_count (fun m => invocations (ep_ep m)) (fun m => ep_cached m <> None)).
  intros o [fn [c|] lvl] Hm; [|done]. destruct o; unfold_lazy; split_cases.
Qed.

(** X6. [IsStructured] resolves a lazy composer: on an unresolved fields
    producer or error producer it invokes the wrapped function, once, and
    answers true, and no later call of the composer's methods invokes the
    function again. On a fields producer without a function it answers true;
    on an error producer or a composer producer without one it panics. A
    string message is not structured. *)
Theorem IsStructured_resolves (p : level.Priority) (ops : list Op)
  (ff : FieldsProducer) (fields : gmap string string) (ef : ErrorProducer) (err : error)
  (s : string) (overRideLevel : bool) :
  body ff (calls ff) = Val fields ->
  body ef (calls ef) = Val err ->
  let fp := NewFieldsProducerMessage p (Some ff) in
  let ep := NewErrorProducerMessage p (Some ef) in
  ((IsStructured fp).1 = Val true
   /\ invocations (fp_fp (IsStructured fp).2) = S (calls ff)
   /\ invocations (fp_fp (performAll ops (IsStructured fp).2).2) = S (calls ff))
  /\ ((IsStructured ep).1 = Val true
      /\ invocations (ep_ep (IsStructured ep).2) = S (calls ef)
      /\ invocations (ep_ep (performAll ops (IsStructured ep).2).2) = S (calls ef))
  /\ ((IsStructured (NewFieldsProducerMessage p None)).1 = Val true
      /\ (IsStructured (NewErrorProducerMessage p None)).1 = Panicked nilDereference
      /\ (IsStructured (NewComposerProducerMessage (C:=C) p None)).1
         = Panicked nilDereference)
  /\ (IsStructured (convert (C:=C) p (InString s) overRideLevel)).1 = Val false.
Proof.
  intros Hff Hef fp ep. subst fp ep. split; [|split; [|split; [repeat split|done]]].
  - assert (IsStructured (NewFieldsProducerMessage p (Some ff))
            = (Val true, mkFieldsProducerMessage
                           (Some (mkFunc (S (calls ff)) (body ff)))
                           (Some (NewFields p fields)) p)) as ->.
    { unfold IsStructured, fieldsProducerMessage_Structured. unfold_lazy. by rewrite Hff. }
    split; [done|]. split; [done|]. by rewrite fp_resolved_invocations.
  - assert (IsStructured (NewErrorProducerMessage p (Some ef))
            = (Val true, mkErrorProducerMessage
                           (Some (mkFunc (S (calls ef)) (body ef)))
                           (Some (NewErrorMessage p err)) p)) as ->.
    { unfold IsStructured, errorProducerMessage_Structured. unfold_lazy. by rewrite Hef. }
    split; [done|]. split; [done|]. by rewrite ep_resolved_invocations.
Qed.

End IsStructured.

(** X6, witness: the function of a fields producer at Debug has run once
    after [IsStructured], and once after [IsStructured] and [String]. *)
Lemma IsStructured_resolves_witness :
  let f : FieldsProducer := mkFunc 0 (fun _ => Val {["op" := "sync"]}) in
  let fp := NewFieldsProducerMessage level.Debug (Some f) in
  invocations (fp_fp (IsStructured fp).2) = 1
  /\ invocations (fp_fp (performAll [CallString] (IsStructured fp).2).2) = 1.
Proof.
  intros f fp.
  pose proof (IsStructured_resolves (C:=concreteMessage) level.Debug [CallString] f
                {["op" := "sync"]} (mkFunc 0 (fun _ => Val None)) None "" true
                eq_refl eq_refl) as [(_ & H1 & H2) _].
  split; [exact H1|exact H2].
Defined.

(** ** The logger: levels, names and the swap *)

Section LoggerState.

Context {C : Type} `{Composer C}.

(** X8. [SetLevel] of the logger updates in part: a field of the given
    LevelInfo that is invalid is replaced by the sender's current one. When
    the sender's current LevelInfo is valid the call never fails, the
    sender's level becomes the merged one and its name stays. *)
Theorem SetLevel_merges (info : LevelInfo) (g : Grip) (σ : Store) :
  let cur := levelInfo (σ (embedded (impl g))) in
  let merged := mkLevelInfo
                  (if level.IsValid (Default info) then Default info else Default cur)
                  (if level.IsValid (Threshold info) then Threshold info else Threshold cur) in
  Valid cur = true ->
  logging.SetLevel (C:=C) info g σ
  = (Returned None, withLevel (impl g) merged σ, [EvRLock; EvLoadImpl; EvLoadImpl; EvRUnlock])
  /\ levelInfo (withLevel (impl g) merged σ (embedded (impl g))) = merged
  /\ name (withLevel (impl g) merged σ (embedded (impl g))) = name (σ (embedded (impl g)))
  /\ Valid merged = true.
Proof.
  intros cur merged Hv. subst cur merged.
  rewrite levelInfo_withLevel, name_withLevel.
  unfold Valid in *. apply andb_prop in Hv as [Hd Ht].
  assert (forall a b, level.IsValid b = true ->
            level.IsValid (if level.IsValid a then a else b) = true) as Hm.
  { intros a b Hb. by destruct (level.IsValid a) eqn:Ha. }
  split; [|cbn; by rewrite !Hm].
  unfold_logger. destruct info as [d t]. cbn.
  destruct (level.IsValid d) eqn:Hd'; destruct (level.IsValid t) eqn:Ht'; cbn;
    unfold Valid; repeat (progress (cbn; rewrite ?Hd', ?Ht', ?Hd, ?Ht)); done.
Qed.

End LoggerState.

(** X8, witness: only the threshold is given. *)
Lemma SetLevel_merges_witness :
  let σ : Store := fun _ =>
    mkBase "grip" (mkLevelInfo level.Info level.Notice) None (fun _ => None) in
  let g := MakeGrip (backend 0) in
  levelInfo (storeOf (logging.SetLevel (C:=concreteMessage)
                        (mkLevelInfo level.Invalid level.Debug) g σ) 0)
  = mkLevelInfo level.Info level.Debug.
Proof.
  intros σ g.
  pose proof (SetLevel_merges (C:=concreteMessage)
                (mkLevelInfo level.Invalid level.Debug) g σ eq_refl)
    as (Hs & Hl & _).
  rewrite Hs. exact Hl.
Defined.

Section LoggerSwap.

Context {C : Type} `{Composer C}.

(** X9. What a failed [SetSender] leaves behind. When the current LevelInfo
    is rejected, nothing has changed and [Close] has not been called. When
    [Close] of the current sender fails, the logger keeps its sender, but the
    new sender has already been given the current LevelInfo, and [Close] of
    the current sender has been called once. *)
Theorem SetSender_failure_effects (new : Sender) (g : Grip) (σ : Store) (e : string) :
  let old := impl g in
  let cur := levelInfo (σ (embedded old)) in
  (Valid cur = false ->
   SetSender (C:=C) (Some new) g σ
   = (Returned (Some "level settings are not valid", g), σ, [EvLock; EvLoadImpl; EvUnlock]))
  /\ (Valid cur = true -> closeResult (σ (embedded old)) = Some e ->
      let after := SetSender (C:=C) (Some new) g σ in
      resultOf after = Returned (Some e, g)
      /\ levelInfo (storeOf after (embedded new)) = cur
      /\ (forall l, name (storeOf after l) = name (σ l))
      /\ closeCalls (embedded old) (eventsOf after) = 1).
Proof.
  intros old cur. subst old cur. split.
  - intros Hv. rewrite SetSender_eval. cbn. by rewrite Hv.
  - intros Hv Hc after. subst after. rewrite SetSender_eval. cbn.
    rewrite Hv, closeResult_withLevel, Hc. unfold resultOf, storeOf, eventsOf. cbn.
    rewrite levelInfo_withLevel. repeat split.
    + intros l. apply name_withLevel.
    + unfold closeCalls. cbn. by rewrite bool_decide_eq_true_2.
Qed.

(** X10. After a [SetSender] that returns nil, [GetSender] returns the new
    sender, [Name] of the logger returns what it returned before, and the
    logger's default level is kept. *)
Theorem GetSender_after_SetSender (new : Sender) (g g' : Grip) (σ σ' : Store)
  (evs : list (Event (Message C))) :
  SetSender (Some new) g σ = (Returned (None, g'), σ', evs) ->
  resultOf (GetSender (C:=C) g' σ') = Returned new
  /\ resultOf (logging.Name (C:=C) g' σ') = resultOf (logging.Name (C:=C) g σ)
  /\ defaultLevel g' = defaultLevel g.
Proof.
  rewrite SetSender_eval. cbn.
  destruct (Valid _); [|done]. destruct (closeResult _); [done|].
  intros [= <- <- <-]. unfold resultOf. unfold_logger.
  by rewrite name_withName, name_withLevel.
Qed.

(** X11. A name set through a logger is the name of its sender: every sender
    that embeds the same [*Base], and every logger on such a sender, returns
    it; the levels and the names of the other senders stay. *)
Theorem SetName_reaches_the_sender (n : string) (g g2 : Grip) (s : Sender) (σ : Store) :
  embedded s = embedded (impl g) ->
  embedded (impl g2) = embedded (impl g) ->
  let σ' := storeOf (logging.SetName (C:=C) n g σ) in
  resultOf (send.Name (T:=Message C) s σ') = Returned n
  /\ resultOf (logging.Name (C:=C) g σ') = Returned n
  /\ resultOf (logging.Name (C:=C) g2 σ') = Returned n
  /\ (forall l, levelInfo (σ' l) = levelInfo (σ l))
  /\ (forall l, l <> embedded (impl g) -> name (σ' l) = name (σ l)).
Proof.
  intros Hs Hg σ'. subst σ'. unfold storeOf, resultOf. unfold_logger.
  rewrite Hs, Hg, name_withName. repeat split.
  - intros l. apply levelInfo_withName.
  - intros l Hl. unfold withName. cbv zeta. by rewrite fn_lookup_insert_ne.
Qed.

End LoggerSwap.

(** X9, witness: the current sender's [Close] fails. *)
Lemma SetSender_failure_effects_witness :
  let σ : Store := fun l =>
    mkBase "grip"
      (mkLevelInfo level.Info (if decide (l = 0) then level.Notice else level.Debug))
      (if decide (l = 0) then Some "close failed" else None) (fun _ => None) in
  let g := MakeGrip (backend 0) in
  let after := SetSender (C:=concreteMessage) (Some (backend 1)) g σ in
  resultOf after = Returned (Some "close failed", g)
  /\ levelInfo (storeOf after 1) = mkLevelInfo level.Info level.Notice.
Proof.
  intros σ g after.
  pose proof (proj2 (SetSender_failure_effects (C:=concreteMessage) (backend 1) g σ
                       "close failed") eq_refl eq_refl) as (Hr & Hl & _).
  split; [exact Hr|exact Hl].
Defined.

(** X10, witness: the logger on the sender at 0 takes the sender at 1. *)
Lemma GetSender_after_SetSender_witness :
  let σ : Store := fun l =>
    mkBase (if decide (l = 0) then "old" else "new") (mkLevelInfo level.Info level.Info)
      None (fun _ => None) in
  let g := MakeGrip (backend 0) in
  let σ' := withName (backend 1) "old" (withLevel (backend 1) (levelInfo (σ 0)) σ) in
  resultOf (GetSender (C:=concreteMessage) (mkGrip (backend 1) level.Info) σ')
  = Returned (backend 1)
  /\ resultOf (logging.Name (C:=concreteMessage) (mkGrip (backend 1) level.Info) σ')
     = Returned "old".
Proof.
  intros σ g σ'.
  pose proof (GetSender_after_SetSender (C:=concreteMessage) (backend 1) g
                (mkGrip (backend 1) level.Info) σ σ'
                [EvLock; EvLoadImpl; EvLoadImpl; EvClose 0; EvLoadImpl; EvStoreImpl; EvUnlock]
                eq_refl) as (Hg & Hn & _).
  split; [exact Hg|exact Hn].
Defined.

(** X11, witness: a second logger on an annotating sender around the same
    backend. *)
Lemma SetName_reaches_the_sender_witness :
  let σ : Store := fun _ => mkBase "grip" (mkLevelInfo level.Info level.Info) None (fun _ => None) in
  let g := MakeGrip (backend 0) in
  let g2 := MakeGrip (NewAnnotatingSender (backend 0) {["host" := "a"]}) in
  resultOf (logging.Name (C:=concreteMessage) g2
              (storeOf (logging.SetName (C:=concreteMessage) "worker" g σ)))
  = Returned "worker".
Proof.
  intros σ g g2.
  exact (proj1 (proj2 (proj2 (SetName_reaches_the_sender (C:=concreteMessage) "worker" g g2
                                (backend 0) σ eq_refl eq_refl)))).
Defined.

(** ** Senders: a send that the level rejects *)

Section SendEffects.

Context {T : Type} `{Composer T}.
Variable range : gmap string string -> list (string * string).

(** X12. When the inner sender's level rejects the composer, the annotating
    sender returns at once: no annotation is made, the error handler is not
    called and the inner sender's [Send] is not called. *)
Theorem annotating_send_rejected (inner : Sender) (annotations : gmap string string)
  (m m1 : T) (σ : Store) :
  ShouldLog (levelInfo (σ (embedded inner))) m = (Val false, m1) ->
  send.Send range (annotatingSender inner annotations) m σ = (Returned m1, σ, []).
Proof.
  intros Hok. cbn [send.Send]. unfold bind, send.Level, onMessage. by rewrite Hok.
Qed.

End SendEffects.

(** ** Annotations on a concrete composer *)

(** Two predicates that agree on the elements of a list select the same. *)
Lemma filter_agree {A : Type} (P Q : A -> Prop)
  `{forall x, Decision (P x), forall x, Decision (Q x)} (l : list A) :
  Forall (fun x => P x <-> Q x) l -> filter P l = filter Q l.
Proof.
  induction 1 as [|x l Hx Hl IH]; [done|].
  rewrite !filter_cons, IH. destruct (decide (P x)), (decide (Q x)); try done; tauto.
Qed.

(** The loop over annotations with distinct keys, on a concrete composer:
    the new keys are added, the keys that exist fail. *)
Lemma annotateAll_concrete (kvs : list (string * string)) (m : concreteMessage) (σ : Store) :
  NoDup kvs.*1 ->
  exists errs m',
    annotateAll kvs m σ = (Returned (errs, m'), σ, annotation <$> kvs)
    /\ annotations m' = annotations m ∪ list_to_map kvs
    /\ content m' = content m /\ message.Level m' = message.Level m
    /\ length errs = length (filter (fun kv => is_Some (annotations m !! kv.1)) kvs).
Proof.
  revert m. induction kvs as [|[k v] kvs IH]; intros m Hnd.
  - exists [], m. cbn. by rewrite (right_id_L ∅ (∪) (annotations m)).
  - rewrite fmap_cons in Hnd. apply list.NoDup_cons in Hnd as [Hk Hnd]. cbn [annotateAll].
    unfold bind, emit, onMessage, ret.
    change (Annotate k v m) with (let (e, m') := concrete_Annotate k v m in (Val e, m')).
    unfold concrete_Annotate.
    destruct (annotations m !! k) as [old|] eqn:Hl.
    + destruct (IH m Hnd) as (errs & m' & Ha & Hm & Hc & Hp & Hn).
      rewrite Ha. eexists _, m'. split; [cbn; by rewrite app_nil_r|].
      split; [|split; [done|split; [done|]]].
      * rewrite Hm, list_to_map_cons. apply map_eq. intros i. rewrite !lookup_union.
        destruct (decide (i = k)) as [->|Hi].
        -- rewrite Hl, lookup_insert_eq. by destruct (list_to_map kvs !! k).
        -- by rewrite lookup_insert_ne.
      * rewrite filter_cons_True by (cbn; by rewrite Hl). cbn. by rewrite Hn.
    + edestruct IH as (errs & m' & Ha & Hm & Hc & Hp & Hn); [exact Hnd|].
      rewrite Ha. eexists _, m'. split; [cbn; by rewrite app_nil_r|].
      split; [|split; [done|split; [done|]]].
      * rewrite Hm, list_to_map_cons. cbn. rewrite <- insert_union_l.
        by rewrite insert_union_r.
      * rewrite filter_cons_False by (cbn; rewrite Hl; by intros []). rewrite Hn. cbn.
        f_equal. apply filter_agree. apply Forall_forall. intros [k' v'] Hin.
        cbn. rewrite lookup_insert_ne; [reflexivity|].
        intros <-. apply Hk. cbn. apply list_elem_of_fmap. exists (k, v').
        split; [done|]. by apply list_elem_of_In.
Qed.

(** X15. The annotating sender's loop on a concrete composer: whatever the
    order of iteration, the composer ends with its own annotations and, for
    the keys it did not have, those of the mapping; its content and priority
    stay; and the failures are as many as the keys of the mapping that it
    already had. *)
Theorem annotations_are_merged (range : gmap string string -> list (string * string))
  (mapping : gmap string string) (m : concreteMessage) (σ : Store) :
  range mapping ≡ₚ map_to_list mapping ->
  exists errs m',
    annotateAll (range mapping) m σ = (Returned (errs, m'), σ, annotation <$> range mapping)
    /\ annotations m' = annotations m ∪ mapping
    /\ content m' = content m /\ message.Level m' = message.Level m
    /\ length errs
       = length (filter (fun kv => is_Some (annotations m !! kv.1)) (range mapping)).
Proof.
  intros Hperm.
  assert (NoDup (range mapping).*1) as Hnd.
  { rewrite Hperm. apply NoDup_fst_map_to_list. }
  destruct (annotateAll_concrete (range mapping) m σ Hnd) as (errs & m' & Ha & Hm & Hc & Hp & Hn).
  exists errs, m'. split; [done|]. split; [|split; [done|split; [done|]]].
  - rewrite Hm. f_equal. rewrite (list_to_map_proper _ _ Hnd Hperm).
    apply list_to_map_to_list.
  - done.
Qed.

(** X15, witness: a mapping of two keys on a message that has one of them. *)
Lemma annotations_are_merged_witness :
  let σ : Store := fun _ => mkBase "grip" (mkLevelInfo level.Info level.Info) None (fun _ => None) in
  let m := mkConcrete (Text "hello") {["k" := "old"]} level.Info in
  let mapping : gmap string string := {["k" := "v"; "host" := "a"]} in
  exists errs m',
    annotateAll (map_to_list mapping) m σ
    = (Returned (errs, m'), σ, annotation <$> map_to_list mapping)
    /\ annotations m' = annotations m ∪ mapping
    /\ content m' = content m /\ message.Level m' = message.Level m
    /\ length errs
       = length (filter (fun kv => is_Some (annotations m !! kv.1)) (map_to_list mapping)).
Proof.
  intros σ m mapping.
  exact (annotations_are_merged map_to_list mapping m σ (reflexivity _)).
Defined.

(** X12, witness: a Debug message against the threshold Info. *)
Lemma annotating_send_rejected_witness :
  let σ : Store := fun _ => mkBase "grip" (mkLevelInfo level.Info level.Info) None (fun _ => None) in
  let m := NewDefaultMessage level.Debug "hello" in
  send.Send map_to_list (annotatingSender (backend 0) {["k" := "v"]}) m σ = (Returned m, σ, []).
Proof.
  intros σ m.
  exact (annotating_send_rejected map_to_list (backend 0) {["k" := "v"]} m m σ eq_refl).
Defined.
